(** * server.ts: the chat hub and the HTTP relay

    A shallow embedding of the two handlers of [server.ts] that carry
    protocol behaviour: the WebSocket listeners registered in
    [wss.on("connection")] (history buffer [messages], connection set
    [clients]) and the Express route [app.get("/api/proxy")].

    Handlers are written in a small state-and-exception monad so that
    [try { ... } catch (e) { ... }] keeps the mutations made before a
    throw, as JavaScript does. *)

From Stdlib Require Import ZArith String Ascii Strings.Byte Floats.
From stdpp Require Import base list strings.

Local Open Scope string_scope.
Local Open Scope list_scope.
Local Open Scope nat_scope.
Set Warnings "-register-all".

(** ** JavaScript values *)

Module Js.

(** What [JSON.parse] can return.  Numbers are IEEE doubles. *)
Inductive json : Type :=
| JNull
| JBool (b : bool)
| JNum (x : float)
| JStr (s : string)
| JArr (items : list json)
| JObj (fields : list (string * json)).

(** A value read from a property: [None] is [undefined]. *)
Definition value : Type := option json.

(** ToBoolean. *)
Definition truthy_json (v : json) : bool :=
  match v with
  | JNull => false
  | JBool b => b
  | JNum x => negb (PrimFloat.is_zero x || PrimFloat.is_nan x)
  | JStr s => negb (String.eqb s "")
  | JArr _ | JObj _ => true
  end.

Definition truthy (v : value) : bool :=
  match v with
  | None => false
  | Some j => truthy_json j
  end.

(** [a || b] with a right operand that is a string literal. *)
Definition or_else (a : value) (b : string) : json :=
  match a with
  | Some j => if truthy_json j then j else JStr b
  | None => JStr b
  end.

(** Own property of a parsed object; [JSON.parse] keeps the last of
    duplicate keys. *)
Fixpoint own (k : string) (fields : list (string * json)) : value :=
  match fields with
  | [] => None
  | (k', v) :: rest =>
      match own k rest with
      | Some w => Some w
      | None => if String.eqb k k' then Some v else None
      end
  end.

(** [v.k] for the keys this program reads ([type], [user], [text],
    [color]): none of them is defined on the prototypes of strings,
    numbers, booleans or arrays, so only objects answer. *)
Definition prop (v : json) (k : string) : value :=
  match v with
  | JObj fields => own k fields
  | _ => None
  end.

(** [v === "lit"]. *)
Definition strict_eq_str (v : value) (lit : string) : bool :=
  match v with
  | Some (JStr s) => String.eqb s lit
  | _ => false
  end.

(** [String.prototype.substring(start, end)]: both indices are clamped
    to the length and swapped when out of order. *)
Definition substring (s : string) (start stop : nat) : string :=
  let len := String.length s in
  let a := Nat.min start len in
  let b := Nat.min stop len in
  String.substring (Nat.min a b) (Nat.max a b - Nat.min a b) s.

Record error : Type := Error { name : string; message : string }.

End Js.

(** ** State and exceptions *)

Module Eff.

Inductive outcome (A : Type) : Type :=
| Ok (a : A)
| Throw (e : Js.error).
Arguments Ok {A} a.
Arguments Throw {A} e.

(** A computation over a store [S]: the store survives a throw. *)
Definition M (S A : Type) : Type := S -> S * outcome A.

Definition ret {S A} (a : A) : M S A := fun s => (s, Ok a).

Definition bind {S A B} (m : M S A) (k : A -> M S B) : M S B :=
  fun s =>
    match m s with
    | (s', Ok a) => k a s'
    | (s', Throw e) => (s', Throw e)
    end.

Definition throw {S A} (e : Js.error) : M S A := fun s => (s, Throw e).

Definition try_catch {S A} (body : M S A) (handler : Js.error -> M S A) : M S A :=
  fun s =>
    match body s with
    | (s', Ok a) => (s', Ok a)
    | (s', Throw e) => handler e s'
    end.

Definition gets {S A} (f : S -> A) : M S A := fun s => (s, Ok (f s)).
Definition modify {S} (f : S -> S) : M S unit := fun s => (f s, Ok tt).

(** The store a computation leaves. *)
Definition exec {S A} (m : M S A) (s : S) : S := fst (m s).

Fixpoint for_each {S A} (f : A -> M S unit) (l : list A) : M S unit :=
  match l with
  | [] => ret tt
  | x :: rest => bind (f x) (fun _ => for_each f rest)
  end.

End Eff.

Declare Scope eff_scope.
Delimit Scope eff_scope with eff.
Notation "x <- m ;; k" := (Eff.bind m (fun x => k))
  (at level 100, m at next level, right associativity) : eff_scope.
Notation "m ;; k" := (Eff.bind m (fun _ => k))
  (at level 100, right associativity) : eff_scope.

(** ** The broadcast hub *)

Module Hub.
Import Eff.
Local Open Scope eff_scope.

(** [WebSocket.readyState] *)
Inductive ReadyState : Type := CONNECTING | OPEN | CLOSING | CLOSED.

Definition is_open (st : ReadyState) : bool :=
  match st with OPEN => true | _ => false end.

(** [interface ChatMessage].  The interface declares strings, but the
    fields are filled from an unchecked payload, so they hold whatever
    the client sent ([text] may even be [undefined]). *)
Record ChatMessage : Type := {
  id : string;
  user : Js.json;
  text : Js.value;
  timestamp : Z;
  color : Js.json
}.

(** The two outbound payloads, before [JSON.stringify]. *)
Inductive frame : Type :=
| FInit (snapshot : list ChatMessage)
| FMessage (m : ChatMessage).

(** One call of [send] on a socket, with the socket's [readyState] at
    the moment of the call. *)
Record send_call : Type := {
  target : nat;
  at_state : ReadyState;
  payload : frame
}.

(** The process-wide state.  Sockets are objects of the [ws] library:
    they live in a heap indexed by allocation order, and [clients]
    holds references to them.  A JavaScript [Set] iterates in insertion
    order, so [clients] is a duplicate-free list. *)
Record hub : Type := {
  messages : list ChatMessage;
  clients : list nat;
  sockets : list ReadyState;
  sent : list send_call;
  console : list Js.error
}.

Definition init_hub : hub :=
  {| messages := []; clients := []; sockets := []; sent := []; console := [] |}.

Definition readyState (h : hub) (ws : nat) : ReadyState :=
  default CLOSED (sockets h !! ws).

(** *** Primitive operations *)

(** [messages.push(m)] *)
Definition messages_push (m : ChatMessage) : M hub unit :=
  modify (fun h =>
    {| messages := messages h ++ [m]; clients := clients h;
       sockets := sockets h; sent := sent h; console := console h |}).

(** [messages.shift()] *)
Definition messages_shift : M hub unit :=
  modify (fun h =>
    {| messages := tail (messages h); clients := clients h;
       sockets := sockets h; sent := sent h; console := console h |}).

Definition set_add (ws : nat) (s : list nat) : list nat :=
  if bool_decide (ws ∈ s) then s else s ++ [ws].

Definition set_delete (ws : nat) (s : list nat) : list nat :=
  List.filter (fun c => negb (Nat.eqb c ws)) s.

(** [clients.add(ws)] *)
Definition clients_add (ws : nat) : M hub unit :=
  modify (fun h =>
    {| messages := messages h; clients := set_add ws (clients h);
       sockets := sockets h; sent := sent h; console := console h |}).

(** [clients.delete(ws)] *)
Definition clients_delete (ws : nat) : M hub unit :=
  modify (fun h =>
    {| messages := messages h; clients := set_delete ws (clients h);
       sockets := sockets h; sent := sent h; console := console h |}).

(** [ws.send(data)] as the [ws] library does it: a socket that is still
    CONNECTING throws, any other call is recorded.  (The library writes
    to the transport only when the socket is OPEN.) *)
Definition ws_send (ws : nat) (f : frame) : M hub unit :=
  fun h =>
    match readyState h ws with
    | CONNECTING =>
        (h, Throw (Js.Error "Error" "WebSocket is not open: readyState 0 (CONNECTING)"))
    | st =>
        ({| messages := messages h; clients := clients h; sockets := sockets h;
            sent := sent h ++ [{| target := ws; at_state := st; payload := f |}];
            console := console h |}, Ok tt)
    end.

(** [console.error("WS message error:", e)] *)
Definition console_error (e : Js.error) : M hub unit :=
  modify (fun h =>
    {| messages := messages h; clients := clients h; sockets := sockets h;
       sent := sent h; console := console h ++ [e] |}).

(** [JSON.parse(data.toString())]: [None] stands for text that is not
    JSON. *)
Definition JSON_parse (data : option Js.json) : M hub Js.json :=
  match data with
  | Some v => ret v
  | None => throw (Js.Error "SyntaxError" "Unexpected token")
  end.

(** [payload.k]: reading a property of [null] throws. *)
Definition get (payload : Js.json) (k : string) : M hub Js.value :=
  match payload with
  | Js.JNull => throw (Js.Error "TypeError" "Cannot read properties of null")
  | _ => ret (Js.prop payload k)
  end.

(** [clients.forEach(f)].  The callback never changes the set, so the
    iteration visits the members present when it starts, in insertion
    order. *)
Definition clients_forEach (f : nat -> M hub unit) : M hub unit :=
  cs <- gets clients ;; for_each f cs.

(** *** The listeners *)

(** What the handler reads from its environment while it builds a
    message: the text of [Math.random().toString(36)] and the value of
    [Date.now()]. *)
Record env : Type := { random36 : string; now : Z }.

(** The object literal [newMessage]. *)
Definition new_message (payload : Js.json) (e : env) : M hub ChatMessage :=
  u <- get payload "user" ;;
  t <- get payload "text" ;;
  c <- get payload "color" ;;
  ret {| id := Js.substring (random36 e) 2 11;
         user := Js.or_else u "Anonymous";
         text := t;
         timestamp := now e;
         color := Js.or_else c "#ffffff" |}.

(** [clients.forEach(client => { if (client.readyState === WebSocket.OPEN) client.send(broadcastData) })] *)
Definition broadcast (m : ChatMessage) : M hub unit :=
  let broadcastData := FMessage m in
  clients_forEach (fun client =>
    st <- gets (fun h => readyState h client) ;;
    if is_open st then ws_send client broadcastData else ret tt).

(** [ws.on("message", data => ...)] *)
Definition on_message (data : option Js.json) (e : env) : M hub unit :=
  try_catch
    (payload <- JSON_parse data ;;
     ty <- get payload "type" ;;
     if Js.strict_eq_str ty "message" then
       newMessage <- new_message payload e ;;
       messages_push newMessage ;;
       len <- gets (fun h => length (messages h)) ;;
       (if Nat.ltb 50 len then messages_shift else ret tt) ;;
       broadcast newMessage
     else ret tt)
    console_error.

(** [wss.on("connection", ws => ...)], up to the registration of the
    two listeners. *)
Definition on_connection (ws : nat) : M hub unit :=
  clients_add ws ;;
  ms <- gets messages ;;
  ws_send ws (FInit ms).

(** [ws.on("close", ...)] *)
Definition on_close (ws : nat) : M hub unit := clients_delete ws.

(** *** The event loop *)

(** The library hands the listener a new socket, already OPEN. *)
Definition accept : M hub nat :=
  fun h =>
    ({| messages := messages h; clients := clients h;
        sockets := sockets h ++ [OPEN]; sent := sent h; console := console h |},
     Ok (length (sockets h))).

(** The transport moves a socket to another state. *)
Definition set_ready (ws : nat) (st : ReadyState) : M hub unit :=
  modify (fun h =>
    {| messages := messages h; clients := clients h;
       sockets := <[ws := st]> (sockets h); sent := sent h; console := console h |}).

Inductive event : Type :=
| Connection
| Message (ws : nat) (data : option Js.json) (e : env)
| Close (ws : nat)
| Transport (ws : nat) (st : ReadyState).

Definition step (ev : event) : M hub unit :=
  match ev with
  | Connection => ws <- accept ;; on_connection ws
  | Message _ data e => on_message data e
  | Close ws => on_close ws
  | Transport ws st => set_ready ws st
  end.

(** Listeners run to completion one after the other. *)
Definition run (evs : list event) (h : hub) : hub :=
  fold_left (fun h ev => exec (step ev) h) evs h.

(** *** Vocabulary for the statements *)

(** The inbound data is an object whose [type] is ["message"]. *)
Definition is_post (data : option Js.json) : bool :=
  match data with
  | Some payload => Js.strict_eq_str (Js.prop payload "type") "message"
  | None => false
  end.

(** The message an accepted payload becomes. *)
Definition message_of (payload : Js.json) (e : env) : ChatMessage :=
  {| id := Js.substring (random36 e) 2 11;
     user := Js.or_else (Js.prop payload "user") "Anonymous";
     text := Js.prop payload "text";
     timestamp := now e;
     color := Js.or_else (Js.prop payload "color") "#ffffff" |}.

(** The messages created along a run, in arrival order. *)
Definition posted_by (ev : event) : list ChatMessage :=
  match ev with
  | Message _ (Some payload) e =>
      if is_post (Some payload) then [message_of payload e] else []
  | _ => []
  end.

Definition posted (evs : list event) : list ChatMessage :=
  flat_map posted_by evs.

(** The history after appending [m]: push, then shift when over 50. *)
Definition store (m : ChatMessage) (h : hub) : hub :=
  let pushed := messages h ++ [m] in
  {| messages := if Nat.ltb 50 (length pushed) then tail pushed else pushed;
     clients := clients h; sockets := sockets h; sent := sent h;
     console := console h |}.

(** A [send] of the broadcast of [m] on an OPEN socket. *)
Definition call_open (m : ChatMessage) (c : nat) : send_call :=
  {| target := c; at_state := OPEN; payload := FMessage m |}.

(** The [send] calls one broadcast of [m] makes in state [h]: one for
    each member of the set that is OPEN, in the set's order. *)
Definition fanout (m : ChatMessage) (h : hub) : list send_call :=
  map (call_open m) (List.filter (fun c => is_open (readyState h c)) (clients h)).

(** A snapshot sent at join time holds at most 50 messages. *)
Definition snapshot_bounded (c : send_call) : Prop :=
  match payload c with
  | FInit ms => length ms <= 50
  | FMessage _ => True
  end.

(** The state after further [send] calls. *)
Definition logged (h : hub) (calls : list send_call) : hub :=
  {| messages := messages h; clients := clients h; sockets := sockets h;
     sent := sent h ++ calls; console := console h |}.

(** The state after further [console.error] lines. *)
Definition complained (h : hub) (errs : list Js.error) : hub :=
  {| messages := messages h; clients := clients h; sockets := sockets h;
     sent := sent h; console := console h ++ errs |}.

(** The state after the library has accepted a socket and the set has
    taken it in. *)
Definition joined (h : hub) : hub :=
  {| messages := messages h;
     clients := set_add (length (sockets h)) (clients h);
     sockets := sockets h ++ [OPEN];
     sent := sent h; console := console h |}.

(** Frames handed to [send] on socket [ws], oldest first. *)
Definition frames_to (ws : nat) (log : list send_call) : list frame :=
  map payload (List.filter (fun c => Nat.eqb (target c) ws) log).

(** The chat messages broadcast to [ws], oldest first. *)
Definition broadcasts_to (ws : nat) (log : list send_call) : list ChatMessage :=
  flat_map (fun f => match f with FMessage m => [m] | FInit _ => [] end)
           (frames_to ws log).

Definition is_init (f : frame) : bool :=
  match f with FInit _ => true | FMessage _ => false end.

Definition is_broadcast (f : frame) : bool :=
  match f with FMessage _ => true | FInit _ => false end.

(** A socket's frames start with the snapshot; only broadcasts follow. *)
Definition init_first (fs : list frame) : bool :=
  match fs with
  | [] => true
  | f :: rest => is_init f && forallb is_broadcast rest
  end.

(** The shapes a step of the event loop can take. *)
Inductive shape (h : hub) (ev : event) : hub -> Prop :=
| shape_join :
    ev = Connection ->
    shape h ev (logged (joined h)
                  [{| target := length (sockets h); at_state := OPEN;
                      payload := FInit (messages h) |}])
| shape_post m :
    posted_by ev = [m] ->
    shape h ev (logged (store m h) (fanout m h))
| shape_quiet errs :
    posted_by ev = [] ->
    shape h ev (complained h errs)
| shape_leave ws :
    posted_by ev = [] ->
    shape h ev {| messages := messages h; clients := set_delete ws (clients h);
                  sockets := sockets h; sent := sent h; console := console h |}
| shape_ready ws st :
    posted_by ev = [] ->
    shape h ev {| messages := messages h; clients := clients h;
                  sockets := <[ws := st]> (sockets h); sent := sent h;
                  console := console h |}.

End Hub.

(** ** The relay *)

Module Relay.
Import Eff.
Local Open Scope eff_scope.

(** [req.query.url] as Express parses it: a string, an array or a
    nested object; [None] when the query has no [url]. *)
Inductive qval : Type :=
| QStr (s : string)
| QArr (items : list qval)
| QObj (fields : list (string * qval)).

Definition truthy (q : qval) : bool :=
  match q with
  | QStr s => negb (String.eqb s "")
  | QArr _ | QObj _ => true
  end.

(** What the upstream does with the body once the headers are in. *)
Inductive body_result : Type :=
| BodyOk (bytes : list byte)
| BodyFails (cause : string).

(** The [Response] that [fetch] resolves to.  [headers] is its
    [Headers] object: names in lower case, one value per name.
    [body_latency] is the time the body takes after the headers. *)
Record Response : Type := {
  status : Z;
  headers : list (string * string);
  body_latency : Z;
  body : body_result
}.

(** [response.headers.get(name)]: [None] is [null]. *)
Fixpoint headers_get (name : string) (hs : list (string * string)) : option string :=
  match hs with
  | [] => None
  | (n, v) :: rest => if String.eqb n name then Some v else headers_get name rest
  end.

(** How the upstream answers one request when nobody aborts it: after
    [latency] milliseconds the promise of [fetch] settles. *)
Inductive settled : Type :=
| Resolves (r : Response)
| Rejects (cause : string).

Record upstream : Type := { latency : Z; outcome : settled }.

(** Everything the handler does to the outside, oldest first. *)
Inductive effect : Type :=
| ConsoleLog (url : qval)
| ConsoleError (url : qval) (e : Js.error)
| SetTimeout (ms : Z)
| Fetch (url : qval) (request_headers : list (string * string))
| ClearTimeout
| ResSetHeader (name value : string)
| ResStatus (code : Z)
| ResJson (obj : list (string * string))
| ResSend (bytes : list byte).

Definition emit (e : effect) : M (list effect) unit :=
  modify (fun t => t ++ [e]).

(** [fetch(url, { signal, headers })] with a signal that is aborted
    [abort_after] milliseconds after dispatch.  The promise rejects
    with an [AbortError] when the timer comes first (a tie goes to the
    timer), with a [TypeError] on a transport failure. *)
Definition fetch (url : qval) (request_headers : list (string * string))
    (abort_after : Z) (net : upstream) : M (list effect) Response :=
  emit (Fetch url request_headers) ;;
  if (abort_after <=? latency net)%Z
  then throw (Js.Error "AbortError" "This operation was aborted")
  else match outcome net with
       | Resolves r => ret r
       | Rejects cause => throw (Js.Error "TypeError" cause)
       end.

(** [response.arrayBuffer()] *)
Definition arrayBuffer (r : Response) : M (list effect) (list byte) :=
  match body r with
  | BodyOk bytes => ret bytes
  | BodyFails cause => throw (Js.Error "TypeError" cause)
  end.

Definition user_agent : string :=
  "Mozilla/5.0 (Windows NT 10.0; Win64; x64) AppleWebKit/537.36 (KHTML, like Gecko) Chrome/91.0.4472.124 Safari/537.36".

(** [return res.status(400).json({ error: "URL is required" })] *)
Definition url_required : M (list effect) unit :=
  emit (ResStatus 400) ;;
  emit (ResJson [("error", "URL is required")]).

(** The [try] block, from the [console.log] call on.  The log line
    passed to it is built before; [RelayFull] has that step, which can
    throw for a target that is not a string. *)
Definition relay (targetUrl : qval) (net : upstream) : M (list effect) unit :=
  emit (ConsoleLog targetUrl) ;;
  emit (SetTimeout 10000) ;;
  response <- fetch targetUrl [("User-Agent", user_agent)] 10000 net ;;
  emit ClearTimeout ;;
  let contentType := headers_get "content-type" (headers response) in
  match contentType with
  | Some ct =>
      if negb (String.eqb ct "") then emit (ResSetHeader "Content-Type" ct) else ret tt
  | None => ret tt
  end ;;
  emit (ResSetHeader "Access-Control-Allow-Origin" "*") ;;
  emit (ResSetHeader "X-Frame-Options" "ALLOWALL") ;;
  emit (ResSetHeader "Content-Security-Policy" "frame-ancestors *") ;;
  bytes <- arrayBuffer response ;;
  emit (ResSend bytes).

(** The [catch] block, from the [console.error] call on; [RelayFull]
    has the building of its log line as well. *)
Definition relay_failed (targetUrl : qval) (error : Js.error) : M (list effect) unit :=
  emit (ConsoleError targetUrl error) ;;
  let message :=
    if String.eqb (Js.name error) "AbortError"
    then "Request timed out" else "Failed to fetch URL" in
  emit (ResStatus 500) ;;
  emit (ResJson [("error", message); ("details", Js.message error)]).

(** [app.get("/api/proxy", async (req, res) => ...)] *)
Definition proxy (url : option qval) (net : upstream) : M (list effect) unit :=
  match url with
  | None => url_required
  | Some targetUrl =>
      if negb (truthy targetUrl) then url_required
      else try_catch (relay targetUrl net) (relay_failed targetUrl)
  end.

(** The effects of one request. *)
Definition handle (url : option qval) (net : upstream) : list effect :=
  exec (proxy url net) [].

(** *** Vocabulary for the statements *)

Definition is_fetch (e : effect) : bool :=
  match e with Fetch _ _ => true | _ => false end.

(** The outbound requests a trace issues. *)
Definition fetches (t : list effect) : list effect := List.filter is_fetch t.

Inductive content : Type :=
| Json (obj : list (string * string))
| Bytes (bytes : list byte).

(** What the handler has put on the response when the body is written:
    the status, the headers set until then (latest first), and the
    body.  Express adds headers of its own while it writes (a length,
    a default type); they are not part of this record. *)
Record written : Type := {
  w_status : Z;
  w_headers : list (string * string);
  w_body : content
}.

Fixpoint respond (code : Z) (hs : list (string * string)) (t : list effect)
    : option written :=
  match t with
  | [] => None
  | ResStatus c :: rest => respond c hs rest
  | ResSetHeader n v :: rest => respond code ((n, v) :: hs) rest
  | ResJson obj :: _ => Some {| w_status := code; w_headers := hs; w_body := Json obj |}
  | ResSend bytes :: _ => Some {| w_status := code; w_headers := hs; w_body := Bytes bytes |}
  | _ :: rest => respond code hs rest
  end.

(** The response of a trace; the status is 200 unless set. *)
Definition response_of (t : list effect) : option written := respond 200 [] t.

(** The value the handler has given a header when the body is written. *)
Definition header (w : written) (name : string) : option string :=
  headers_get name (w_headers w).

(** The [Content-Type] call the handler makes for a given upstream
    value. *)
Definition content_type_call (ct : option string) : list effect :=
  match ct with
  | Some c => if negb (String.eqb c "") then [ResSetHeader "Content-Type" c] else []
  | None => []
  end.

Definition sent_status (t : list effect) : option Z := w_status <$> response_of t.
Definition sent_body (t : list effect) : option content := w_body <$> response_of t.
Definition sent_header (t : list effect) (name : string) : option string :=
  response_of t ≫= fun w => header w name.

End Relay.

(** ** Text *)

(** The string methods the browser side uses.  A JavaScript string is
    held as the UTF-8 bytes of its text, so the one-byte characters
    are the ASCII ones and the other white-space characters take two
    or three bytes. *)
Module JsText.

Local Open Scope N_scope.

(** TAB, LF, VT, FF, CR and SPACE. *)
Definition ws1 (a : N) : bool :=
  (a =? 9) || (a =? 10) || (a =? 11) || (a =? 12) || (a =? 13) || (a =? 32).

(** U+00A0. *)
Definition ws2 (a b : N) : bool := (a =? 194) && (b =? 160).

(** U+1680, U+2000 to U+200A, U+2028, U+2029, U+202F, U+205F, U+3000
    and U+FEFF. *)
Definition ws3 (a b c : N) : bool :=
  ((a =? 225) && (b =? 154) && (c =? 128))
  || ((a =? 226) && (b =? 128) && ((128 <=? c) && (c <=? 138)))
  || ((a =? 226) && (b =? 128) && ((c =? 168) || (c =? 169) || (c =? 175)))
  || ((a =? 226) && (b =? 129) && (c =? 159))
  || ((a =? 227) && (b =? 128) && (c =? 128))
  || ((a =? 239) && (b =? 187) && (c =? 191)).

(** Drop the white space a list of bytes starts with.  [p2] and [p3]
    recognise the two-byte and three-byte characters in the order the
    bytes are met. *)
Fixpoint strip (p2 : N -> N -> bool) (p3 : N -> N -> N -> bool) (l : list N) : list N :=
  match l with
  | a :: r1 =>
      if ws1 a then strip p2 p3 r1
      else match r1 with
           | b :: r2 =>
               if p2 a b then strip p2 p3 r2
               else match r2 with
                    | c :: r3 => if p3 a b c then strip p2 p3 r3 else l
                    | [] => l
                    end
           | [] => l
           end
  | [] => l
  end.

Definition bytes (s : string) : list N := map N_of_ascii (list_ascii_of_string s).
Definition text (l : list N) : string := string_of_list_ascii (map ascii_of_N l).

(** [s.trimStart()] *)
Definition trimStart (s : string) : string := text (strip ws2 ws3 (bytes s)).

(** [s.trimEnd()]: the same from the other end. *)
Definition trimEnd (s : string) : string :=
  text (rev (strip (fun a b => ws2 b a) (fun a b c => ws3 c b a) (rev (bytes s)))).

(** [s.trim()] *)
Definition trim (s : string) : string := trimEnd (trimStart s).

(** [s.startsWith(p)] *)
Definition startsWith (s p : string) : bool := String.prefix p s.

(** [s.includes(p)] *)
Fixpoint includes (s p : string) : bool :=
  String.prefix p s
  || match s with
     | String _ rest => includes rest p
     | EmptyString => false
     end.

(** The characters [encodeURIComponent] keeps: letters, digits and
    [-_.!~*'()]. *)
Definition unreserved (a : N) : bool :=
  ((65 <=? a) && (a <=? 90)) || ((97 <=? a) && (a <=? 122)) || ((48 <=? a) && (a <=? 57))
  || (a =? 45) || (a =? 95) || (a =? 46) || (a =? 33) || (a =? 126)
  || (a =? 42) || (a =? 39) || (a =? 40) || (a =? 41).

(** An upper-case hexadecimal digit. *)
Definition hex (d : N) : ascii :=
  ascii_of_N (if d <? 10 then 48 + d else 55 + d).

(** [encodeURIComponent(s)]: every byte of the UTF-8 text that is not
    kept becomes [%XX].  Text with an unpaired surrogate, on which the
    call throws, has no UTF-8 form; [JsUnits] has it. *)
Fixpoint encodeURIComponent (s : string) : string :=
  match s with
  | EmptyString => EmptyString
  | String c rest =>
      let a := N_of_ascii c in
      if unreserved a then String c (encodeURIComponent rest)
      else String "%" (String (hex (a / 16)) (String (hex (a mod 16))
                         (encodeURIComponent rest)))
  end.

End JsText.

(** ** The browser side *)

Module Client.
Import Hub.

(** *** Chat *)

(** [socket.onmessage]: an [init] frame replaces the list, a [message]
    frame is appended to it. *)
Definition onmessage (messages : list ChatMessage) (data : frame) : list ChatMessage :=
  match data with
  | FInit snapshot => snapshot
  | FMessage m => messages ++ [m]
  end.

(** The list a client shows after the frames it was sent. *)
Definition shown (frames : list frame) : list ChatMessage :=
  fold_left onmessage frames [].

Definition USER_COLORS : list string :=
  ["#f87171"; "#fb923c"; "#fbbf24"; "#34d399"; "#22d3ee"; "#818cf8"; "#c084fc"; "#f472b6"].

(** The state [sendChatMessage] reads: the input field, the socket, the
    logged-in user and the color drawn when the page was loaded. *)
Record chat : Type := {
  chatInput : string;
  socketRef : option nat;
  username : option string;
  userColor : string
}.

(** [sendChatMessage]: the new state, and the socket and payload handed
    to [send], if any. *)
Definition sendChatMessage (c : chat) : chat * option (nat * Js.json) :=
  match socketRef c, username c with
  | Some socket, Some name =>
      if String.eqb (JsText.trim (chatInput c)) "" then (c, None)
      else ({| chatInput := ""; socketRef := socketRef c;
               username := username c; userColor := userColor c |},
            Some (socket,
                  Js.JObj [("type", Js.JStr "message");
                           ("user", Js.JStr name);
                           ("text", Js.JStr (chatInput c));
                           ("color", Js.JStr (userColor c))]))
  | _, _ => (c, None)
  end.

(** *** The address bar *)

Inductive Tab : Type := home | proxy | games | chat_tab | settings | about.

Record browser : Type := {
  url : string;
  proxiedUrl : option string;
  isIframeLoading : bool;
  activeTab : Tab
}.

(** The address [handleSearch] makes of the text of the bar: a search
    when the text has no dot or has a space, the text itself otherwise,
    with [https://] put in front when it names no scheme. *)
Definition target_of (url : string) : string :=
  let targetUrl := JsText.trim url in
  let isUrl := JsText.includes targetUrl "." && negb (JsText.includes targetUrl " ") in
  if negb isUrl then
    String.append "https://www.google.com/search?q=" (JsText.encodeURIComponent targetUrl)
  else if negb (JsText.startsWith targetUrl "http://")
          && negb (JsText.startsWith targetUrl "https://")
  then String.append "https://" targetUrl
  else targetUrl.

(** [handleSearch] *)
Definition handleSearch (b : browser) : browser :=
  if String.eqb (url b) "" then b
  else
    {| url := url b;
       proxiedUrl :=
         Some (String.append "/api/proxy?url="
                 (JsText.encodeURIComponent (target_of (url b))));
       isIframeLoading := true;
       activeTab := proxy |}.

(** [clearProxy] *)
Definition clearProxy (b : browser) : browser :=
  {| url := ""; proxiedUrl := None; isIframeLoading := isIframeLoading b;
     activeTab := home |}.

(** A character that can stand in the value of a query parameter
    without ending it: one that [encodeURIComponent] keeps, [%], or a
    hexadecimal digit. *)
Definition query_safe (c : ascii) : bool :=
  let a := N_of_ascii c in
  (JsText.unreserved a || (a =? 37) || ((65 <=? a) && (a <=? 70)))%N.

(** The socket stays in the set and OPEN under the event. *)
Definition stays (ws : nat) (ev : event) : bool :=
  match ev with
  | Close w => negb (Nat.eqb w ws)
  | Transport w _ => negb (Nat.eqb w ws)
  | _ => true
  end.

End Client.

(** ** Accounts *)

Module Auth.
Import Eff.
Local Open Scope eff_scope.

(** What a handler does to the outside: the two prepared statements
    with the values bound to them, and the calls on [res]. *)
Inductive effect : Type :=
| Insert (username password : Js.value)
| Select (username password : Js.value)
| ResStatus (code : Z)
| ResJson (obj : list (string * Js.json)).

Definition emit (e : effect) : M (list effect) unit :=
  modify (fun t => t ++ [e]).

(** What the driver does with [stmt.run]: it returns, or throws an
    error whose [code] is the given value. *)
Inductive run_result : Type :=
| Done
| RunThrows (code : Js.value).

(** What the driver does with [stmt.get]: a row, [undefined], or an
    error. *)
Inductive get_result : Type :=
| Row
| NoRow
| GetThrows (e : Js.error).

(** [const { username, password } = req.body]: destructuring
    [undefined] or [null] throws. *)
Definition credentials (body : Js.value) : M (list effect) (Js.value * Js.value) :=
  match body with
  | None | Some Js.JNull =>
      throw (Js.Error "TypeError" "Cannot destructure property 'username'")
  | Some b => ret (Js.prop b "username", Js.prop b "password")
  end.

(** [return res.status(400).json({ error: "Username and password required" })] *)
Definition required : M (list effect) unit :=
  emit (ResStatus 400) ;;
  emit (ResJson [("error", Js.JStr "Username and password required")]).

(** [app.post("/api/auth/signup", ...)], for a statement that
    [db.prepare] has returned; [AuthFull] has the case in which
    [prepare] throws. *)
Definition signup (body : Js.value) (db : run_result) : M (list effect) unit :=
  c <- credentials body ;;
  let username := fst c in
  let password := snd c in
  if negb (Js.truthy username) || negb (Js.truthy password) then required
  else
    emit (Insert username password) ;;
    match db with
    | Done => emit (ResJson [("success", Js.JBool true)])
    | RunThrows code =>
        if Js.strict_eq_str code "SQLITE_CONSTRAINT"
        then emit (ResStatus 400) ;;
             emit (ResJson [("error", Js.JStr "Username already exists")])
        else emit (ResStatus 500) ;;
             emit (ResJson [("error", Js.JStr "Internal server error")])
    end.

(** [app.post("/api/auth/login", ...)], for a statement that
    [db.prepare] has returned: the lookup is outside any [try].
    [AuthFull] has the case in which [prepare] throws. *)
Definition login (body : Js.value) (db : get_result) : M (list effect) unit :=
  c <- credentials body ;;
  let username := fst c in
  let password := snd c in
  if negb (Js.truthy username) || negb (Js.truthy password) then required
  else
    emit (Select username password) ;;
    match db with
    | Row =>
        emit (ResJson [("success", Js.JBool true);
                       ("username", default Js.JNull username)])
    | NoRow =>
        emit (ResStatus 401) ;;
        emit (ResJson [("error", Js.JStr "Invalid credentials")])
    | GetThrows e => throw e
    end.

Definition is_statement (e : effect) : bool :=
  match e with Insert _ _ | Select _ _ => true | _ => false end.

Definition is_answer (e : effect) : bool :=
  match e with ResJson _ => true | _ => false end.

(** The status an answer goes out with: the last one set, else 200. *)
Definition status_of (t : list effect) : Z :=
  fold_left (fun code e => match e with ResStatus c => c | _ => code end) t 200%Z.

(** The bodies written. *)
Definition answers (t : list effect) : list (list (string * Js.json)) :=
  flat_map (fun e => match e with ResJson obj => [obj] | _ => [] end) t.

End Auth.

(** ** The login form *)

Module Login.

Inductive mode : Type := login_mode | signup_mode.

(** The state [handleAuth] reads and writes. *)
Record form : Type := {
  authMode : mode;
  authUsername : string;
  authPassword : string;
  authError : Js.json;
  user : option Js.value
}.

(** What [fetch] and [res.json()] give the browser: a status, and the
    parsed body, [None] when the body is not JSON. *)
Record reply : Type := { status : Z; data : option Js.json }.

(** [res.ok] *)
Definition ok (r : reply) : bool := ((200 <=? status r) && (status r <=? 299))%Z.

(** The body [handleAuth] posts. *)
Definition request (f : form) : Js.json :=
  Js.JObj [("username", Js.JStr (authUsername f)); ("password", Js.JStr (authPassword f))].

Definition network_error (f : form) : form :=
  {| authMode := authMode f; authUsername := authUsername f;
     authPassword := authPassword f;
     authError := Js.JStr "Network error. Please try again.";
     user := user f |}.

(** [handleAuth], given how the request went: [None] when [fetch]
    rejected.  A body that is not JSON makes [res.json()] throw, and
    reading a property of a [null] body throws as well; both end in
    the [catch]. *)
Definition handleAuth (f : form) (r : option reply) : form :=
  match r with
  | None => network_error f
  | Some res =>
      match data res with
      | None => network_error f
      | Some d =>
          if ok res then
            match authMode f with
            | login_mode =>
                match d with
                | Js.JNull => network_error f
                | _ =>
                    {| authMode := authMode f; authUsername := authUsername f;
                       authPassword := authPassword f; authError := Js.JStr "";
                       user := Some (Js.prop d "username") |}
                end
            | signup_mode =>
                {| authMode := login_mode; authUsername := authUsername f;
                   authPassword := authPassword f;
                   authError := Js.JStr "Account created! Please log in.";
                   user := user f |}
            end
          else
            match d with
            | Js.JNull => network_error f
            | _ =>
                {| authMode := authMode f; authUsername := authUsername f;
                   authPassword := authPassword f;
                   authError := Js.or_else (Js.prop d "error") "Authentication failed";
                   user := user f |}
            end
      end
  end.

(** The reply a run of an account endpoint gives the browser.  When
    the handler has written an answer, that is the body, with the
    status set; when an error leaves the handler, Express answers 500
    with a page that is not JSON. *)
Definition reply_of (run : list Auth.effect * Eff.outcome unit) : option reply :=
  match snd run with
  | Eff.Ok _ =>
      match last (Auth.answers (fst run)) with
      | Some obj => Some {| status := Auth.status_of (fst run); data := Some (Js.JObj obj) |}
      | None => None
      end
  | Eff.Throw _ => Some {| status := 500; data := None |}
  end.

(** Both fields of the form are filled in. *)
Definition filled (f : form) : bool :=
  negb (String.eqb (authUsername f) "") && negb (String.eqb (authPassword f) "").

(** One press of the button, with what the database driver does. *)
Definition press_login (f : form) (db : Auth.get_result) : form :=
  handleAuth f (reply_of (Auth.login (Some (request f)) db [])).

Definition press_signup (f : form) (db : Auth.run_result) : form :=
  handleAuth f (reply_of (Auth.signup (Some (request f)) db [])).

End Login.

(** ** More vocabulary for the relay *)

Module RelayWords.
Import Relay.

(** The effect writes a body, which ends the response. *)
Definition is_write (e : effect) : bool :=
  match e with ResJson _ | ResSend _ => true | _ => false end.

(** The timers armed and cleared. *)
Definition is_timer (e : effect) : bool :=
  match e with SetTimeout _ | ClearTimeout => true | _ => false end.

(** When the handler of a request with a target writes its answer, in
    milliseconds from dispatch: at the deadline when the timer comes
    first, when [fetch] rejects, or, once [fetch] has resolved, when
    the body read has settled, however long that takes. *)
Definition answered_after (net : upstream) : Z :=
  if (10000 <=? latency net)%Z then 10000%Z
  else match outcome net with
       | Rejects _ => latency net
       | Resolves r => (latency net + body_latency r)%Z
       end.

End RelayWords.

(** ** The relay, with the target written into the log lines *)

(** The two log lines write the target into a template literal, which
    converts it to a string.  For a target that is a string this is
    the identity; for one that Express has parsed into an array or an
    object the conversion can throw. *)
Module RelayFull.
Import Eff Relay.
Local Open Scope eff_scope.

(** [String(q)].  An array is joined with commas.  An object without
    an own [toString] is ["[object Object]"]; with one, which is never
    a function in a parsed query, the conversion finds no method that
    gives a primitive and throws: [None]. *)
Fixpoint to_string (q : qval) : option string :=
  match q with
  | QStr s => Some s
  | QArr items =>
      (fix join (l : list qval) : option string :=
         match l with
         | [] => Some ""
         | [x] => to_string x
         | x :: rest =>
             match to_string x, join rest with
             | Some a, Some b => Some (String.append a (String.append "," b))
             | _, _ => None
             end
         end) items
  | QObj fields =>
      if existsb (fun kv => String.eqb (fst kv) "toString") fields
      then None else Some "[object Object]"
  end.

(** The target in a template literal. *)
Definition template (targetUrl : qval) : M (list effect) string :=
  match to_string targetUrl with
  | Some s => ret s
  | None => throw (Js.Error "TypeError" "Cannot convert object to primitive value")
  end.

(** [app.get("/api/proxy", ...)]: the [try] block starts, and the
    [catch] block starts, by building its log line. *)
Definition proxy (url : option qval) (net : upstream) : M (list effect) unit :=
  match url with
  | None => url_required
  | Some targetUrl =>
      if negb (truthy targetUrl) then url_required
      else try_catch (template targetUrl ;; relay targetUrl net)
                     (fun error => template targetUrl ;; relay_failed targetUrl error)
  end.

(** The effects of one request, and how the handler ends. *)
Definition serve (url : option qval) (net : upstream)
    : (list effect * Eff.outcome unit)%type :=
  proxy url net [].

(** The request has a target that cannot be written into a log line. *)
Definition unprintable (url : option qval) : bool :=
  match url with
  | Some targetUrl =>
      truthy targetUrl && match to_string targetUrl with Some _ => false | None => true end
  | None => false
  end.

End RelayFull.

(** ** Accounts, with the preparation of the statements *)

(** Each endpoint first asks the driver to prepare its statement, and
    only then runs it with the two values.  [db.prepare] can throw as
    well (the table is gone, the file is locked), in which case
    nothing is run. *)
Module AuthFull.
Import Eff Auth.
Local Open Scope eff_scope.

(** What the driver does with [db.prepare]: it returns the statement,
    or throws an error with a [code]. *)
Inductive prepare_result : Type :=
| Prepared
| PrepareThrows (code : Js.value) (e : Js.error).

(** The [catch] block of [signup], given the [code] of the error. *)
Definition refused (code : Js.value) : M (list effect) unit :=
  if Js.strict_eq_str code "SQLITE_CONSTRAINT"
  then emit (ResStatus 400) ;;
       emit (ResJson [("error", Js.JStr "Username already exists")])
  else emit (ResStatus 500) ;;
       emit (ResJson [("error", Js.JStr "Internal server error")]).

(** [app.post("/api/auth/signup", ...)] *)
Definition signup (body : Js.value) (prep : prepare_result) (db : run_result)
    : M (list effect) unit :=
  c <- credentials body ;;
  let username := fst c in
  let password := snd c in
  if negb (Js.truthy username) || negb (Js.truthy password) then required
  else
    match prep with
    | PrepareThrows code _ => refused code
    | Prepared =>
        emit (Insert username password) ;;
        match db with
        | Done => emit (ResJson [("success", Js.JBool true)])
        | RunThrows code => refused code
        end
    end.

(** [app.post("/api/auth/login", ...)]: neither [prepare] nor [get] is
    inside a [try]. *)
Definition login (body : Js.value) (prep : prepare_result) (db : get_result)
    : M (list effect) unit :=
  c <- credentials body ;;
  let username := fst c in
  let password := snd c in
  if negb (Js.truthy username) || negb (Js.truthy password) then required
  else
    match prep with
    | PrepareThrows _ e => throw e
    | Prepared =>
        emit (Select username password) ;;
        match db with
        | Row =>
            emit (ResJson [("success", Js.JBool true);
                           ("username", default Js.JNull username)])
        | NoRow =>
            emit (ResStatus 401) ;;
            emit (ResJson [("error", Js.JStr "Invalid credentials")])
        | GetThrows e => throw e
        end
    end.

(** The [code] of the error the [try] block of [signup] ends with, if
    it throws. *)
Definition thrown (prep : prepare_result) (db : run_result) : option Js.value :=
  match prep, db with
  | PrepareThrows code _, _ => Some code
  | Prepared, RunThrows code => Some code
  | Prepared, Done => None
  end.

(** The error that leaves [login], if the driver throws. *)
Definition escapes (prep : prepare_result) (db : get_result) : option Js.error :=
  match prep, db with
  | PrepareThrows _ e, _ => Some e
  | Prepared, GetThrows e => Some e
  | Prepared, _ => None
  end.

Definition is_prepared (prep : prepare_result) : bool :=
  match prep with Prepared => true | PrepareThrows _ _ => false end.

End AuthFull.

(** ** Text as JavaScript has it *)

(** A JavaScript string as a sequence of UTF-16 code units, so that
    text with an unpaired surrogate, on which [encodeURIComponent]
    throws, has its place. *)
Module JsUnits.

Local Open Scope N_scope.

Definition str : Type := list N.

(** A literal of the program; they are all ASCII. *)
Definition lit (s : string) : str := map N_of_ascii (list_ascii_of_string s).

(** White space and line terminators: TAB, LF, VT, FF, CR, SPACE,
    U+00A0, U+1680, U+2000 to U+200A, U+2028, U+2029, U+202F, U+205F,
    U+3000 and U+FEFF. *)
Definition white (u : N) : bool :=
  (u =? 9) || (u =? 10) || (u =? 11) || (u =? 12) || (u =? 13) || (u =? 32)
  || (u =? 160) || (u =? 5760) || ((8192 <=? u) && (u <=? 8202))
  || (u =? 8232) || (u =? 8233) || (u =? 8239) || (u =? 8287)
  || (u =? 12288) || (u =? 65279).

(** Drop the white space a string starts with. *)
Fixpoint skip (s : str) : str :=
  match s with
  | u :: rest => if white u then skip rest else s
  | [] => []
  end.

(** [s.trim()] *)
Definition trim (s : str) : str := rev (skip (rev (skip s))).

(** [s.startsWith(p)] *)
Fixpoint startsWith (s p : str) : bool :=
  match p with
  | [] => true
  | a :: p' =>
      match s with
      | b :: s' => (a =? b) && startsWith s' p'
      | [] => false
      end
  end.

(** [s.includes(p)] *)
Fixpoint includes (s p : str) : bool :=
  startsWith s p
  || match s with
     | _ :: rest => includes rest p
     | [] => false
     end.

(** High surrogates, U+D800 to U+DBFF, and low ones, U+DC00 to
    U+DFFF. *)
Definition high (u : N) : bool := (55296 <=? u) && (u <=? 56319).
Definition low (u : N) : bool := (56320 <=? u) && (u <=? 57343).

(** An upper-case hexadecimal digit. *)
Definition hexd (d : N) : N := if d <? 10 then 48 + d else 55 + d.

(** The UTF-8 octets of a code point. *)
Definition utf8 (v : N) : list N :=
  if v <? 128 then [v]
  else if v <? 2048 then [192 + v / 64; 128 + v mod 64]
  else if v <? 65536 then [224 + v / 4096; 128 + (v / 64) mod 64; 128 + v mod 64]
  else [240 + v / 262144; 128 + (v / 4096) mod 64; 128 + (v / 64) mod 64;
        128 + v mod 64].

(** [%XX] for each octet. *)
Definition escape (octets : list N) : str :=
  flat_map (fun b => [37; hexd (b / 16); hexd (b mod 16)]) octets.

(** [encodeURIComponent(s)]; [None] is the URIError thrown for a low
    surrogate on its own or a high one that no low one follows. *)
Fixpoint encodeURIComponent (s : str) : option str :=
  match s with
  | [] => Some []
  | c :: rest =>
      if JsText.unreserved c then
        match encodeURIComponent rest with
        | Some out => Some (c :: out)
        | None => None
        end
      else if low c then None
      else if high c then
        match rest with
        | d :: rest' =>
            if low d then
              match encodeURIComponent rest' with
              | Some out =>
                  Some (escape (utf8 ((c - 55296) * 1024 + (d - 56320) + 65536)) ++ out)
              | None => None
              end
            else None
        | [] => None
        end
      else
        match encodeURIComponent rest with
        | Some out => Some (escape (utf8 c) ++ out)
        | None => None
        end
  end.

(** Every surrogate of the text is one half of a pair. *)
Fixpoint well_formed (s : str) : bool :=
  match s with
  | [] => true
  | c :: rest =>
      if low c then false
      else if high c then
        match rest with
        | d :: rest' => low d && well_formed rest'
        | [] => false
        end
      else well_formed rest
  end.

(** The call of [encodeURIComponent] returns. *)
Definition encodes (s : str) : bool :=
  match encodeURIComponent s with Some _ => true | None => false end.

(** All code units are ASCII. *)
Definition ascii (s : str) : bool := forallb (fun u => u <? 128) s.

(** All code units fit in sixteen bits, as those of every JavaScript
    string do. *)
Definition units (s : str) : bool := forallb (fun u => u <? 65536) s.

End JsUnits.

(** ** The address bar, on any text *)

Module AddressBar.
Import Eff JsUnits.
Local Open Scope eff_scope.

Record browser : Type := {
  url : str;
  proxiedUrl : option str;
  isIframeLoading : bool;
  activeTab : Client.Tab
}.

(** A call of [encodeURIComponent]. *)
Definition encode (s : str) : M browser str :=
  match encodeURIComponent s with
  | Some out => ret out
  | None => throw (Js.Error "URIError" "URI malformed")
  end.

(** [handleSearch]: the three setters come after the last call that
    can throw. *)
Definition handleSearch : M browser unit :=
  typed <- gets url ;;
  match typed with
  | [] => ret tt
  | _ :: _ =>
      let targetUrl := trim typed in
      let isUrl := includes targetUrl (lit ".") && negb (includes targetUrl (lit " ")) in
      targetUrl <-
        (if negb isUrl then
           q <- encode targetUrl ;;
           ret (lit "https://www.google.com/search?q=" ++ q)
         else if negb (startsWith targetUrl (lit "http://"))
                 && negb (startsWith targetUrl (lit "https://"))
         then ret (lit "https://" ++ targetUrl)
         else ret targetUrl) ;;
      value <- encode targetUrl ;;
      modify (fun b =>
        {| url := url b;
           proxiedUrl := Some (lit "/api/proxy?url=" ++ value);
           isIframeLoading := true;
           activeTab := Client.proxy |})
  end.

(** The address [handleSearch] makes of the text of the bar; [None]
    when the encoding of a search throws. *)
Definition target_of (typed : str) : option str :=
  let targetUrl := trim typed in
  let isUrl := includes targetUrl (lit ".") && negb (includes targetUrl (lit " ")) in
  if negb isUrl then
    match encodeURIComponent targetUrl with
    | Some q => Some (lit "https://www.google.com/search?q=" ++ q)
    | None => None
    end
  else if negb (startsWith targetUrl (lit "http://"))
          && negb (startsWith targetUrl (lit "https://"))
  then Some (lit "https://" ++ targetUrl)
  else Some targetUrl.

(** What the bar shows after a search for the address [target]. *)
Definition opened (b : browser) (value : str) : browser :=
  {| url := url b;
     proxiedUrl := Some (lit "/api/proxy?url=" ++ value);
     isIframeLoading := true;
     activeTab := Client.proxy |}.

(** The bar with some text typed in, nothing opened. *)
Definition typed_in (text : str) : browser :=
  {| url := text; proxiedUrl := None; isIframeLoading := false;
     activeTab := Client.home |}.

(** A host name typed with blanks around it. *)
Definition host_typed : browser := typed_in (lit "  example.com ").

(** A host name followed by the first half of an emoji. *)
Definition half_emoji : browser := typed_in (lit "a.b" ++ [55357%N]).

End AddressBar.

(** ** Sample inputs *)

Module Samples.
Import Hub.

Definition alice_hi : Js.json :=
  Js.JObj [("type", Js.JStr "message"); ("user", Js.JStr "alice");
           ("text", Js.JStr "hi"); ("color", Js.JStr "#fff")].

(** A post without [text]. *)
Definition no_text : Js.json := Js.JObj [("type", Js.JStr "message")].

(** A post whose [text] and [color] are empty strings. *)
Definition empty_fields : Js.json :=
  Js.JObj [("type", Js.JStr "message"); ("user", Js.JStr "bob");
           ("text", Js.JStr ""); ("color", Js.JStr "")].

(** A payload of another type. *)
Definition ping : Js.json := Js.JObj [("type", Js.JStr "ping")].

Definition e0 : env := {| random36 := "0.4fzyo82mvyr"; now := 1700000000000 |}.

(** A later draw that differs from the one of [e0] in its last digit
    only. *)
Definition e1 : env := {| random36 := "0.4fzyo82mvy8"; now := 1700000000500 |}.

(** One connection has joined. *)
Definition one_client : hub := run [Connection] init_hub.

(** Two connections have joined; the transport of the first is closing
    and its ["close"] listener has not run yet. *)
Definition one_closing : hub :=
  run [Connection; Connection; Transport 0 CLOSING] init_hub.

(** Post number [i], told apart by its timestamp. *)
Definition numbered (i : nat) : event :=
  Message 0 (Some alice_hi) {| random36 := "0.4fzyo82mvyr"; now := Z.of_nat i |}.

End Samples.

Module RelaySamples.
Import Relay.

Definition page : Response :=
  {| status := 200;
     headers := [("content-type", "text/html; charset=utf-8");
                 ("x-frame-options", "DENY")];
     body_latency := 40;
     body := BodyOk [x3c; x70; x3e] |}.

(** The upstream sends a [Content-Type] header with an empty value. *)
Definition untyped_page : Response :=
  {| status := 200; headers := [("content-type", "")];
     body_latency := 40; body := BodyOk [x3c; x70; x3e] |}.

(** The body takes twenty seconds once the headers are in. *)
Definition slow_body : Response :=
  {| status := 200; headers := [("content-type", "video/mp4")];
     body_latency := 20000; body := BodyOk [x00; x00] |}.

(** The connection breaks while the body is read. *)
Definition broken_body : Response :=
  {| status := 200; headers := [("content-type", "text/html")];
     body_latency := 10; body := BodyFails "terminated" |}.

Definition example_com : qval := QStr "https://example.com/".

Definition quick (r : Response) : upstream := {| latency := 120; outcome := Resolves r |}.

(** The upstream answers after fifteen seconds. *)
Definition fifteen_seconds : upstream := {| latency := 15000; outcome := Resolves page |}.

Definition refused : upstream := {| latency := 3; outcome := Rejects "fetch failed" |}.

End RelaySamples.

Module MoreSamples.
Import Client.

(** [carol] has typed a message with blanks around it. *)
Definition carol_typing : chat :=
  {| chatInput := "  hello  "; socketRef := Some 0; username := Some "carol";
     userColor := "#34d399" |}.

(** The field holds blanks only. *)
Definition carol_idle : chat :=
  {| chatInput := "   "; socketRef := Some 0; username := Some "carol";
     userColor := "#34d399" |}.

Definition bar (text : string) : browser :=
  {| url := text; proxiedUrl := None; isIframeLoading := false; activeTab := home |}.

(** A body with both fields. *)
Definition dave : Js.json :=
  Js.JObj [("username", Js.JStr "dave"); ("password", Js.JStr "hunter2")].

(** A body whose password is empty. *)
Definition dave_no_password : Js.json :=
  Js.JObj [("username", Js.JStr "dave"); ("password", Js.JStr "")].

(** The login form filled in by [dave], nobody logged in. *)
Definition dave_form : Login.form :=
  {| Login.authMode := Login.login_mode; Login.authUsername := "dave";
     Login.authPassword := "hunter2"; Login.authError := Js.JStr "";
     Login.user := None |}.

(** The same form in sign-up mode. *)
Definition dave_signup_form : Login.form :=
  {| Login.authMode := Login.signup_mode; Login.authUsername := "dave";
     Login.authPassword := "hunter2"; Login.authError := Js.JStr "";
     Login.user := None |}.

(** [dave], logged in, has typed a message. *)
Definition dave_typing : chat :=
  {| chatInput := "hi all"; socketRef := Some 0; username := Some "dave";
     userColor := "#f87171" |}.

(** The [users] table is gone. *)
Definition no_table : AuthFull.prepare_result :=
  AuthFull.PrepareThrows (Some (Js.JStr "SQLITE_ERROR"))
    (Js.Error "SqliteError" "no such table: users").

(** What Express makes of [?url[toString]=x]. *)
Definition no_to_string : Relay.qval := Relay.QObj [("toString", Relay.QStr "x")].

(** What Express makes of [?url=a.example&url=b.example]. *)
Definition two_urls : Relay.qval :=
  Relay.QArr [Relay.QStr "a.example"; Relay.QStr "b.example"].

(** A page that was not found, with a cookie. *)
Definition not_found : Relay.Response :=
  {| Relay.status := 404;
     Relay.headers := [("content-type", "text/html; charset=utf-8");
                       ("set-cookie", "sid=1"); ("x-frame-options", "DENY")];
     Relay.body_latency := 40;
     Relay.body := Relay.BodyOk [x3c; x70; x3e] |}.

End MoreSamples.

(** * Properties of the hub *)

Module HubFacts.
Import Eff Hub Samples.

(** ** The handlers as state transformers *)

Lemma logged_nil h : logged h [] = h.
Proof. destruct h; unfold logged; simpl. by rewrite app_nil_r. Qed.

Lemma logged_logged h a b : logged (logged h a) b = logged h (a ++ b).
Proof. unfold logged; simpl. by rewrite app_assoc. Qed.

Lemma for_each_send m cs h :
  for_each (fun client =>
      bind (gets (fun h => readyState h client)) (fun st =>
        if is_open st then ws_send client (FMessage m) else ret tt)) cs h
  = (logged h (map (fun c => {| target := c; at_state := OPEN; payload := FMessage m |})
                   (List.filter (fun c => is_open (readyState h c)) cs)), Ok tt).
Proof.
  revert h. induction cs as [|c cs IH]; intros h.
  - simpl. by rewrite logged_nil.
  - cbn [for_each List.filter]. unfold bind at 1. unfold bind at 1. unfold gets at 1.
    destruct (readyState h c) eqn:Hc; cbn [is_open].
    + unfold ret at 1. apply IH.
    + unfold ws_send. rewrite Hc. rewrite IH. f_equal.
      change (logged (logged h [{| target := c; at_state := OPEN; payload := FMessage m |}])
                (map (fun c0 => {| target := c0; at_state := OPEN; payload := FMessage m |})
                   (List.filter (fun c0 => is_open (readyState h c0)) cs))
              = logged h (map (fun c0 => {| target := c0; at_state := OPEN; payload := FMessage m |})
                   (c :: List.filter (fun c0 => is_open (readyState h c0)) cs))).
      by rewrite logged_logged.
    + unfold ret at 1. apply IH.
    + unfold ret at 1. apply IH.
Qed.

Lemma broadcast_eq m h : broadcast m h = (logged h (fanout m h), Ok tt).
Proof.
  unfold broadcast, clients_forEach. unfold bind at 1. unfold gets at 1.
  apply for_each_send.
Qed.

Lemma get_object fields k h :
  get (Js.JObj fields) k h = (h, Ok (Js.prop (Js.JObj fields) k)).
Proof. reflexivity. Qed.

Lemma is_post_object payload :
  is_post (Some payload) = true -> exists fields, payload = Js.JObj fields.
Proof.
  destruct payload; simpl; try discriminate. eauto.
Qed.

Lemma on_message_post payload e h :
  is_post (Some payload) = true ->
  on_message (Some payload) e h
  = (logged (store (message_of payload e) h) (fanout (message_of payload e) h), Ok tt).
Proof.
  intros Hp. destruct (is_post_object _ Hp) as [fields ->].
  simpl in Hp.
  unfold on_message, try_catch, JSON_parse.
  unfold bind at 1. unfold ret at 1.
  unfold bind at 1. rewrite get_object. cbn [Js.prop]. rewrite Hp.
  unfold new_message.
  unfold bind at 1. unfold bind at 1. rewrite get_object.
  unfold bind at 1. rewrite get_object.
  unfold bind at 1. rewrite get_object.
  unfold ret at 1.
  fold (message_of (Js.JObj fields) e).
  set (m := message_of (Js.JObj fields) e).
  unfold bind at 1. unfold messages_push, modify at 1.
  unfold bind at 1. unfold gets at 1. cbn [messages].
  unfold bind at 1.
  replace (fanout m h) with (fanout m (store m h)) by reflexivity.
  unfold store.
  destruct (Nat.ltb 50 (length (messages h ++ [m]))) eqn:Hlen.
  - unfold messages_shift, modify. cbn [messages clients sockets sent console].
    rewrite broadcast_eq. reflexivity.
  - unfold ret at 1. rewrite broadcast_eq. reflexivity.
Qed.

Lemma complained_nil h : complained h [] = h.
Proof. destruct h; unfold complained; simpl. by rewrite app_nil_r. Qed.

Lemma on_message_drop data e h :
  is_post data = false ->
  exists errs, on_message data e h = (complained h errs, Ok tt).
Proof.
  intros Hp. destruct data as [payload|].
  - destruct payload as [|b|x|s|items|fields].
    + exists [Js.Error "TypeError" "Cannot read properties of null"]. reflexivity.
    + exists []. by rewrite complained_nil.
    + exists []. by rewrite complained_nil.
    + exists []. by rewrite complained_nil.
    + exists []. by rewrite complained_nil.
    + exists []. rewrite complained_nil. simpl in Hp.
      unfold on_message, try_catch, JSON_parse.
      unfold bind at 1. unfold ret at 1.
      unfold bind at 1. rewrite get_object. cbn [Js.prop]. by rewrite Hp.
  - exists [Js.Error "SyntaxError" "Unexpected token"]. reflexivity.
Qed.

Lemma lookup_fresh_open (l : list ReadyState) : (l ++ [OPEN]) !! length l = Some OPEN.
Proof. rewrite lookup_app_r by lia. by rewrite Nat.sub_diag. Qed.

Lemma connection_eq h :
  step Connection h
  = (logged (joined h)
       [{| target := length (sockets h); at_state := OPEN;
           payload := FInit (messages h) |}], Ok tt).
Proof.
  unfold step. unfold bind at 1. unfold accept.
  unfold on_connection. unfold bind at 1. unfold clients_add, modify at 1.
  unfold bind at 1. unfold gets at 1. cbn [messages].
  unfold ws_send, readyState. cbn [sockets].
  rewrite lookup_fresh_open. reflexivity.
Qed.

Lemma run_snoc evs ev h : run (evs ++ [ev]) h = exec (step ev) (run evs h).
Proof. unfold run. by rewrite fold_left_app. Qed.

Lemma posted_snoc evs ev : posted (evs ++ [ev]) = posted evs ++ posted_by ev.
Proof. unfold posted. rewrite flat_map_app. simpl. by rewrite app_nil_r. Qed.

Lemma step_shape h ev : shape h ev (exec (step ev) h).
Proof.
  destruct ev as [|ws data e|ws|ws st].
  - unfold exec. rewrite connection_eq. by constructor.
  - destruct (is_post data) eqn:Hp.
    + destruct data as [payload|]; [|discriminate].
      unfold exec, step. rewrite on_message_post by done.
      apply shape_post. unfold posted_by. by rewrite Hp.
    + destruct (on_message_drop data e h Hp) as [errs Heq].
      unfold exec, step. rewrite Heq. apply shape_quiet.
      unfold posted_by. destruct data; [by rewrite Hp|done].
  - by apply shape_leave.
  - by apply shape_ready.
Qed.

(** ** The history is a sliding window over the posted messages *)

Lemma tail_drop {A} (l : list A) : tail l = drop 1 l.
Proof. by destruct l. Qed.

Lemma window_push {A} (P : list A) (m : A) :
  (let pushed := drop (length P - 50) P ++ [m] in
   if Nat.ltb 50 (length pushed) then tail pushed else pushed)
  = drop (length (P ++ [m]) - 50) (P ++ [m]).
Proof.
  cbv zeta. rewrite !length_app, length_drop. cbn [length].
  destruct (Nat.ltb_spec 50 (length P - (length P - 50) + 1)) as [Hlt|Hge].
  - rewrite tail_drop, <- drop_app_le by lia.
    rewrite drop_drop. f_equal. lia.
  - replace (length P - 50) with 0 by lia.
    replace (length P + 1 - 50) with 0 by lia. reflexivity.
Qed.

Lemma window_length {A} (P : list A) :
  length (drop (length P - 50) P) = Nat.min 50 (length P).
Proof. rewrite length_drop. lia. Qed.

Lemma fanout_snapshot_bounded m h : Forall snapshot_bounded (fanout m h).
Proof.
  unfold fanout. apply Forall_map. apply Forall_forall. intros c _. exact I.
Qed.

Lemma history_window evs :
  messages (run evs init_hub) = drop (length (posted evs) - 50) (posted evs)
  /\ Forall snapshot_bounded (sent (run evs init_hub)).
Proof.
  induction evs as [|ev evs [IHm IHs]] using rev_ind.
  - split; [reflexivity | constructor].
  - rewrite run_snoc, posted_snoc.
    destruct (step_shape (run evs init_hub) ev) as [Hev|m Hm|errs Hq|ws Hq|ws st Hq].
    + subst ev. cbn [posted_by]. rewrite app_nil_r. split; [exact IHm|].
      cbn [logged joined sent]. apply Forall_app. split; [exact IHs|].
      constructor; [|constructor]. unfold snapshot_bounded. cbn [payload].
      rewrite IHm, window_length. lia.
    + rewrite Hm. split.
      * cbn [logged store messages]. rewrite IHm. apply window_push.
      * cbn [logged store sent]. apply Forall_app. split; [exact IHs|].
        apply fanout_snapshot_bounded.
    + rewrite Hq, app_nil_r. by split.
    + rewrite Hq, app_nil_r. by split.
    + rewrite Hq, app_nil_r. by split.
Qed.

(** C1.  Along every run of the event loop the history never holds more
    than 50 messages, neither between two listeners nor in any snapshot
    sent to a joining connection, and it is exactly the last 50 of the
    messages posted so far, in arrival order. *)
Theorem history_keeps_last_50 (evs : list event) :
  let h := run evs init_hub in
  length (messages h) <= 50
  /\ Forall snapshot_bounded (sent h)
  /\ messages h = drop (length (posted evs) - 50) (posted evs)
  /\ length (messages h) = Nat.min 50 (length (posted evs)).
Proof.
  cbv zeta. destruct (history_window evs) as [Hm Hs].
  rewrite Hm, window_length. repeat split; try done. lia.
Qed.

(** ** What each socket is sent *)

Lemma frames_to_app ws l1 l2 :
  frames_to ws (l1 ++ l2) = frames_to ws l1 ++ frames_to ws l2.
Proof. unfold frames_to. by rewrite List.filter_app, map_app. Qed.

Lemma broadcasts_to_app ws l1 l2 :
  broadcasts_to ws (l1 ++ l2) = broadcasts_to ws l1 ++ broadcasts_to ws l2.
Proof. unfold broadcasts_to. by rewrite frames_to_app, flat_map_app. Qed.

Lemma frames_to_absent m ws (cs : list nat) :
  ws ∉ cs -> frames_to ws (map (call_open m) cs) = [].
Proof.
  induction cs as [|c cs IH]; intros Hnot; [reflexivity|].
  apply not_elem_of_cons in Hnot as [Hne Hnot].
  unfold frames_to. cbn [map List.filter call_open target].
  destruct (Nat.eqb_spec c ws) as [->|_]; [done|]. by apply IH.
Qed.

Lemma frames_to_once m ws (cs : list nat) :
  NoDup cs ->
  frames_to ws (map (call_open m) cs) = if bool_decide (ws ∈ cs) then [FMessage m] else [].
Proof.
  induction 1 as [|c cs Hc Hnd IH].
  - reflexivity.
  - unfold frames_to. cbn [map List.filter call_open target].
    destruct (Nat.eqb_spec c ws) as [->|Hne].
    + rewrite bool_decide_eq_true_2 by apply list_elem_of_here.
      cbn [map payload]. f_equal. by apply frames_to_absent.
    + fold (frames_to ws (map (call_open m) cs)). rewrite IH.
      destruct (decide (ws ∈ cs)) as [Hin|Hout].
      * rewrite !bool_decide_eq_true_2; [done| |done]. by apply list_elem_of_further.
      * rewrite !bool_decide_eq_false_2; [done| |done].
        intros [?|?]%elem_of_cons; congruence.
Qed.

Lemma filter_elem_of (P : nat -> bool) (cs : list nat) c :
  c ∈ List.filter P cs <-> c ∈ cs /\ P c = true.
Proof. rewrite !list_elem_of_In. apply List.filter_In. Qed.

Lemma filter_NoDup (P : nat -> bool) (cs : list nat) :
  NoDup cs -> NoDup (List.filter P cs).
Proof.
  induction 1 as [|c cs Hc Hnd IH]; [constructor|].
  cbn [List.filter]. destruct (P c); [|done].
  constructor; [|done]. rewrite filter_elem_of. tauto.
Qed.

Lemma set_add_NoDup ws cs : NoDup cs -> NoDup (set_add ws cs).
Proof.
  intros Hnd. unfold set_add. case_bool_decide; [done|].
  apply NoDup_app. repeat split; [done| |apply NoDup_singleton].
  intros x Hx ->%list_elem_of_singleton. done.
Qed.

Lemma set_add_elem_of ws cs c : c ∈ set_add ws cs <-> c = ws \/ c ∈ cs.
Proof.
  unfold set_add. case_bool_decide.
  - split; [tauto|]. intros [->|?]; done.
  - rewrite elem_of_app, list_elem_of_singleton. tauto.
Qed.

Lemma set_delete_elem_of ws cs c : c ∈ set_delete ws cs <-> c ∈ cs /\ c <> ws.
Proof.
  unfold set_delete. rewrite filter_elem_of, negb_true_iff, Nat.eqb_neq. tauto.
Qed.

Lemma clients_NoDup evs : NoDup (clients (run evs init_hub)).
Proof.
  induction evs as [|ev evs IH] using rev_ind; [constructor|].
  rewrite run_snoc.
  destruct (step_shape (run evs init_hub) ev) as [Hev|m Hm|errs Hq|ws Hq|ws st Hq];
    cbn [logged joined store complained clients]; try done.
  - by apply set_add_NoDup.
  - by apply filter_NoDup.
Qed.

Lemma fanout_frames m h ws :
  NoDup (clients h) ->
  frames_to ws (fanout m h)
  = if bool_decide (ws ∈ clients h) && is_open (readyState h ws)
    then [FMessage m] else [].
Proof.
  intros Hnd. unfold fanout.
  rewrite frames_to_once by by apply filter_NoDup.
  destruct (decide (ws ∈ clients h)) as [Hin|Hout].
  - rewrite (bool_decide_eq_true_2 (ws ∈ clients h)) by done. cbn [andb].
    destruct (is_open (readyState h ws)) eqn:Ho.
    + rewrite bool_decide_eq_true_2; [done|]. by apply filter_elem_of.
    + rewrite bool_decide_eq_false_2; [done|].
      intros [_ ?]%filter_elem_of. congruence.
  - rewrite (bool_decide_eq_false_2 (ws ∈ clients h)) by done. cbn [andb].
    rewrite bool_decide_eq_false_2; [done|].
    intros [? _]%filter_elem_of. done.
Qed.

Lemma broadcast_order evs ws :
  sublist (broadcasts_to ws (sent (run evs init_hub))) (posted evs).
Proof.
  induction evs as [|ev evs IH] using rev_ind; [constructor|].
  rewrite run_snoc, posted_snoc.
  destruct (step_shape (run evs init_hub) ev) as [Hev|m Hm|errs Hq|w Hq|w st Hq].
  - subst ev. cbn [posted_by logged joined sent]. rewrite app_nil_r.
    rewrite broadcasts_to_app.
    unfold broadcasts_to at 2, frames_to. cbn [List.filter target].
    destruct (Nat.eqb _ ws); cbn; by rewrite app_nil_r.
  - rewrite Hm. cbn [logged store sent]. rewrite broadcasts_to_app.
    apply sublist_app; [done|].
    unfold broadcasts_to. rewrite fanout_frames by apply clients_NoDup.
    destruct (_ && _); cbn; [done|]. apply sublist_nil_l.
  - by rewrite Hq, app_nil_r.
  - by rewrite Hq, app_nil_r.
  - by rewrite Hq, app_nil_r.
Qed.

Lemma store_last m h : last (messages (store m h)) = Some m.
Proof.
  unfold store. cbn [messages].
  destruct (Nat.ltb_spec 50 (length (messages h ++ [m]))) as [Hlt|_].
  - destruct (messages h) as [|a l]; [simpl in Hlt; lia|].
    cbn [app tail]. apply last_snoc.
  - apply last_snoc.
Qed.

(** C5.  An accepted post is the broadcast of the new message run from
    the state in which the history already ends with it; the broadcast
    calls [send] once on each member of the set that is OPEN; and what
    any socket is broadcast along a run is a subsequence of the posted
    messages in arrival order. *)
Theorem post_appends_then_broadcasts
    (h : hub) (payload : Js.json) (e : env) (evs : list event) (ws : nat)
    (Hp : is_post (Some payload) = true) :
  let m := message_of payload e in
  on_message (Some payload) e h = broadcast m (store m h)
  /\ last (messages (store m h)) = Some m
  /\ sent (exec (on_message (Some payload) e) h)
     = sent h ++ map (call_open m)
                     (List.filter (fun c => is_open (readyState h c)) (clients h))
  /\ sublist (broadcasts_to ws (sent (run evs init_hub))) (posted evs).
Proof.
  cbv zeta. split; [|split; [|split]].
  - rewrite on_message_post, broadcast_eq by done. reflexivity.
  - apply store_last.
  - unfold exec. rewrite on_message_post by done. reflexivity.
  - apply broadcast_order.
Qed.

(** ** The snapshot comes first *)

Lemma init_first_snoc fs gs :
  fs <> [] -> init_first fs = true -> forallb is_broadcast gs = true ->
  init_first (fs ++ gs) = true.
Proof.
  destruct fs as [|f fs]; [done|]. intros _ Hf Hg.
  cbn [init_first app] in *. apply andb_true_iff in Hf as [Hi Hb].
  rewrite Hi, forallb_app, Hb, Hg. reflexivity.
Qed.

Lemma fanout_all_broadcast m h ws :
  forallb is_broadcast (frames_to ws (fanout m h)) = true.
Proof.
  unfold fanout, frames_to.
  induction (List.filter _ (clients h)) as [|c cs IH]; [reflexivity|].
  cbn [map List.filter call_open target]. destruct (Nat.eqb c ws); [|done].
  cbn [map payload forallb is_broadcast]. exact IH.
Qed.

Lemma fanout_members m h ws :
  ws ∉ clients h -> frames_to ws (fanout m h) = [].
Proof.
  intros Hout. unfold fanout. apply frames_to_absent.
  intros [? _]%filter_elem_of. done.
Qed.

Lemma frames_to_one ws c :
  frames_to ws [c] = if Nat.eqb (target c) ws then [payload c] else [].
Proof. unfold frames_to. cbn [List.filter]. by destruct (Nat.eqb _ _). Qed.

Lemma snapshot_first evs :
  let h := run evs init_hub in
  forall ws,
    init_first (frames_to ws (sent h)) = true
    /\ (ws ∈ clients h -> frames_to ws (sent h) <> [])
    /\ (length (sockets h) <= ws -> frames_to ws (sent h) = []).
Proof.
  cbv zeta. induction evs as [|ev evs IH] using rev_ind.
  - intros ws. repeat split; try done. intros Hin. by apply not_elem_of_nil in Hin.
  - intros ws. rewrite run_snoc.
    destruct (IH ws) as (I1 & I2 & I3).
    destruct (step_shape (run evs init_hub) ev) as [Hev|m Hm|errs Hq|w Hq|w st Hq].
    + cbn [logged joined sent clients sockets]. rewrite frames_to_app.
      rewrite frames_to_one. cbn [target payload].
      destruct (Nat.eqb_spec (length (sockets (run evs init_hub))) ws) as [Heq|Hne].
      * rewrite I3 by lia. cbn. repeat split; try done.
        rewrite length_app. cbn. lia.
      * rewrite app_nil_r. repeat split; [done| |].
        -- intros [->|Hin]%set_add_elem_of; [done|by apply I2].
        -- rewrite length_app. cbn. intros. apply I3. lia.
    + cbn [logged store sent clients sockets]. rewrite frames_to_app.
      destruct (decide (ws ∈ clients (run evs init_hub))) as [Hin|Hout].
      * repeat split.
        -- apply init_first_snoc; [by apply I2|done|apply fanout_all_broadcast].
        -- intros _ Heq. apply app_eq_nil in Heq as [Heq _]. by apply I2.
        -- intros Hge. specialize (I3 Hge). by apply I2 in Hin.
      * rewrite fanout_members by done. rewrite app_nil_r. by repeat split.
    + by repeat split.
    + cbn [sent clients sockets]. repeat split; [done| |done].
      intros [Hin _]%set_delete_elem_of. by apply I2.
    + cbn [sent clients sockets]. repeat split; [done|done|].
      rewrite length_insert. apply I3.
Qed.

(** C6.  A connection event makes exactly one [send] call, on the new
    socket alone, carrying the whole history as it stands; and along
    every run the frames of each socket start with that snapshot, every
    later one being a broadcast. *)
Theorem join_sends_snapshot_first (h : hub) (evs : list event) (ws : nat) :
  step Connection h
  = (logged (joined h)
       [{| target := length (sockets h); at_state := OPEN;
           payload := FInit (messages h) |}], Ok tt)
  /\ init_first (frames_to ws (sent (run evs init_hub))) = true.
Proof.
  split; [apply connection_eq|]. apply (snapshot_first evs).
Qed.

(** ** Broadcasts go to OPEN sockets only *)

Lemma fanout_targets m h :
  Forall (fun c => target c ∈ clients h /\ readyState h (target c) = OPEN
                   /\ at_state c = OPEN /\ payload c = FMessage m)
         (fanout m h).
Proof.
  unfold fanout. apply Forall_map. apply Forall_forall.
  intros c [Hin Hopen]%filter_elem_of. cbn [call_open target at_state payload].
  repeat split; [done|]. by destruct (readyState h c).
Qed.

Lemma fanout_skips m h ws : readyState h ws <> OPEN -> frames_to ws (fanout m h) = [].
Proof.
  intros Hst. unfold fanout. apply frames_to_absent.
  intros [_ Hopen]%filter_elem_of. by destruct (readyState h ws).
Qed.

Lemma sends_when_open evs :
  Forall (fun c => at_state c = OPEN) (sent (run evs init_hub)).
Proof.
  induction evs as [|ev evs IH] using rev_ind; [constructor|].
  rewrite run_snoc.
  destruct (step_shape (run evs init_hub) ev) as [Hev|m Hm|errs Hq|w Hq|w st Hq];
    cbn [logged joined store complained sent]; try done.
  - apply Forall_app. split; [done|]. by repeat constructor.
  - apply Forall_app. split; [done|].
    eapply Forall_impl; [apply fanout_targets|]. cbn. tauto.
Qed.

(** C10.  A broadcast calls [send] exactly on the members of the set
    whose [readyState] is OPEN when the loop reaches them; a socket in
    any other state gets no call, whether or not it is still in the
    set; and along every run no [send] is ever made on a socket that is
    not OPEN. *)
Theorem broadcast_skips_closed
    (m : ChatMessage) (h : hub) (evs : list event) (ws : nat)
    (Hst : readyState h ws <> OPEN) :
  broadcast m h = (logged h (fanout m h), Ok tt)
  /\ Forall (fun c => target c ∈ clients h /\ readyState h (target c) = OPEN
                      /\ at_state c = OPEN /\ payload c = FMessage m)
            (fanout m h)
  /\ frames_to ws (sent (exec (broadcast m) h)) = frames_to ws (sent h)
  /\ Forall (fun c => at_state c = OPEN) (sent (run evs init_hub)).
Proof.
  split; [apply broadcast_eq|]. split; [apply fanout_targets|]. split.
  - unfold exec. rewrite broadcast_eq. cbn [fst logged sent].
    rewrite frames_to_app, fanout_skips by done. apply app_nil_r.
  - apply sends_when_open.
Qed.

(** ** Which inbound data become messages *)

(** C2, as the code has it.  A payload whose [type] is ["message"] is
    always accepted, whatever its [text] (absent and empty included):
    the handler returns normally, the history ends with the new
    message, which carries the payload's [text] as it came, the
    broadcast is made, and the connection set and the console are left
    alone.  Inbound data that is not such a payload changes neither the
    history nor the connection set and causes no [send]. *)
Theorem post_accepts_any_text
    (h : hub) (payload : Js.json) (data : option Js.json) (e : env)
    (Hp : is_post (Some payload) = true) (Hd : is_post data = false) :
  let m := message_of payload e in
  let h' := exec (on_message (Some payload) e) h in
  let q := exec (on_message data e) h in
  (on_message (Some payload) e h = (h', Ok tt)
   /\ text m = Js.prop payload "text"
   /\ last (messages h') = Some m
   /\ sent h' = sent h ++ fanout m h
   /\ clients h' = clients h
   /\ console h' = console h)
  /\ (on_message data e h = (q, Ok tt)
      /\ messages q = messages h /\ clients q = clients h /\ sent q = sent h).
Proof.
  cbv zeta. split.
  - unfold exec. rewrite on_message_post by done. cbn [fst logged store].
    repeat split. apply (store_last (message_of payload e) h).
  - destruct (on_message_drop data e h Hd) as [errs Heq].
    unfold exec. rewrite Heq. by repeat split.
Qed.

(** ** The fields of a stored message *)

(** C8, as the code has it.  The identifier of the message an accepted
    post stores is characters 2 to 10 of the text of the random draw:
    it does not depend on the payload, and two messages differ in it
    exactly when their draws differ in those characters. *)
Theorem id_comes_from_random_draw
    (h : hub) (payload payload' : Js.json) (e e' : env)
    (Hp : is_post (Some payload) = true) :
  let m := message_of payload e in
  last (messages (exec (on_message (Some payload) e) h)) = Some m
  /\ id m = Js.substring (random36 e) 2 11
  /\ id (message_of payload' e) = id m
  /\ (id (message_of payload' e') = id m
      <-> Js.substring (random36 e') 2 11 = Js.substring (random36 e) 2 11).
Proof.
  cbv zeta. split; [|by repeat split].
  unfold exec. rewrite on_message_post by done. cbn [fst logged store].
  apply (store_last (message_of payload e) h).
Qed.

Lemma or_else_string s lit : s <> "" -> Js.or_else (Some (Js.JStr s)) lit = Js.JStr s.
Proof.
  intros Hs. unfold Js.or_else, Js.truthy_json.
  by apply String.eqb_neq in Hs as ->.
Qed.

(** C9, as the code has it.  The stored message's author is the
    payload's [user] when that is a non-empty string and ["Anonymous"]
    when it is absent or empty; its color is the payload's [color] when
    that is a non-empty string and ["#ffffff"] when it is absent or
    empty.  For a value of any kind, each field is the payload's when
    that is truthy and the default otherwise. *)
Theorem author_and_color_default
    (h : hub) (payload : Js.json) (e : env)
    (Hp : is_post (Some payload) = true) :
  let m := message_of payload e in
  last (messages (exec (on_message (Some payload) e) h)) = Some m
  /\ (forall s, Js.prop payload "user" = Some (Js.JStr s) -> s <> "" ->
        user m = Js.JStr s)
  /\ (Js.prop payload "user" = None \/ Js.prop payload "user" = Some (Js.JStr "") ->
        user m = Js.JStr "Anonymous")
  /\ (forall s, Js.prop payload "color" = Some (Js.JStr s) -> s <> "" ->
        color m = Js.JStr s)
  /\ (Js.prop payload "color" = None \/ Js.prop payload "color" = Some (Js.JStr "") ->
        color m = Js.JStr "#ffffff")
  /\ user m = (if Js.truthy (Js.prop payload "user")
               then default Js.JNull (Js.prop payload "user") else Js.JStr "Anonymous")
  /\ color m = (if Js.truthy (Js.prop payload "color")
                then default Js.JNull (Js.prop payload "color") else Js.JStr "#ffffff").
Proof.
  cbv zeta. split; [|repeat split].
  - unfold exec. rewrite on_message_post by done. cbn [fst logged store].
    apply (store_last (message_of payload e) h).
  - intros s Hu Hs. cbn [message_of user]. rewrite Hu. by apply or_else_string.
  - intros [Hu|Hu]; cbn [message_of user]; by rewrite Hu.
  - intros s Hc Hs. cbn [message_of color]. rewrite Hc. by apply or_else_string.
  - intros [Hc|Hc]; cbn [message_of color]; by rewrite Hc.
  - cbn [message_of user]. destruct (Js.prop payload "user") as [v|]; [|done].
    cbn [Js.or_else Js.truthy default]. by destruct (Js.truthy_json v).
  - cbn [message_of color]. destruct (Js.prop payload "color") as [v|]; [|done].
    cbn [Js.or_else Js.truthy default]. by destruct (Js.truthy_json v).
Qed.

(** ** The scenarios of the specification, and instances *)

(** After one post, a joining connection is sent a snapshot with that
    one message. *)
Example join_after_post :
  frames_to 0 (sent (run [Message 7 (Some alice_hi) e0; Connection] init_hub))
  = [FInit [{| id := "4fzyo82mv"; user := Js.JStr "alice"; text := Some (Js.JStr "hi");
               timestamp := 1700000000000; color := Js.JStr "#fff" |}]].
Proof. reflexivity. Qed.

(** After 51 posts the first one is gone. *)
Example fifty_one_posts :
  map timestamp (messages (run (map numbered (seq 0 51)) init_hub))
  = map Z.of_nat (seq 1 50).
Proof. vm_compute. reflexivity. Qed.

Lemma post_appends_then_broadcasts_witness :
  is_post (Some alice_hi) = true
  /\ sent (exec (on_message (Some alice_hi) e0) one_closing)
     = sent one_closing ++ [call_open (message_of alice_hi e0) 1].
Proof.
  split; [reflexivity|].
  destruct (post_appends_then_broadcasts one_closing alice_hi e0 [] 0 eq_refl)
    as (_ & _ & H & _).
  exact H.
Defined.

Lemma broadcast_skips_closed_witness :
  readyState one_closing 0 <> OPEN
  /\ frames_to 0 (sent (exec (broadcast (message_of alice_hi e0)) one_closing))
     = frames_to 0 (sent one_closing).
Proof.
  assert (Hst : readyState one_closing 0 <> OPEN) by (vm_compute; discriminate).
  split; [exact Hst|].
  destruct (broadcast_skips_closed (message_of alice_hi e0) one_closing [] 0 Hst)
    as (_ & _ & H & _).
  exact H.
Defined.

(** A post without [text] is stored and broadcast like any other. *)
Lemma post_without_text_is_accepted :
  is_post (Some no_text) = true
  /\ Js.prop no_text "text" = None
  /\ on_message (Some no_text) e0 one_client
     = (exec (on_message (Some no_text) e0) one_client, Ok tt)
  /\ messages (exec (on_message (Some no_text) e0) one_client)
     = [message_of no_text e0]
  /\ messages (exec (on_message (Some no_text) e0) one_client) <> messages one_client
  /\ frames_to 0 (sent (exec (on_message (Some no_text) e0) one_client))
     = [FInit []; FMessage (message_of no_text e0)]
  /\ console (exec (on_message (Some no_text) e0) one_client) = [].
Proof. repeat split; try reflexivity. discriminate. Qed.

Lemma post_accepts_any_text_witness :
  is_post (Some empty_fields) = true /\ is_post (Some ping) = false
  /\ messages (exec (on_message (Some empty_fields) e0) one_client)
     = [message_of empty_fields e0]
  /\ messages (exec (on_message (Some ping) e0) one_client) = [].
Proof.
  split; [reflexivity|]. split; [reflexivity|].
  destruct (post_accepts_any_text one_client empty_fields (Some ping) e0 eq_refl eq_refl)
    as ((_ & _ & _ & _ & _ & _) & (_ & H & _ & _)).
  split; [reflexivity|]. exact H.
Defined.

(** Two posts whose draws agree on characters 2 to 10 get the same
    identifier. *)
Lemma two_messages_one_id :
  exists m1 m2,
    messages (run [Message 0 (Some alice_hi) e0; Message 0 (Some empty_fields) e1] init_hub)
    = [m1; m2]
    /\ random36 e0 <> random36 e1
    /\ timestamp m1 <> timestamp m2
    /\ id m1 = id m2.
Proof.
  exists (message_of alice_hi e0), (message_of empty_fields e1).
  split; [reflexivity|]. split; [discriminate|]. split; [discriminate|]. reflexivity.
Qed.

Lemma id_comes_from_random_draw_witness :
  is_post (Some alice_hi) = true
  /\ id (message_of alice_hi e0) = "4fzyo82mv"
  /\ id (message_of no_text e0) = id (message_of alice_hi e0).
Proof.
  split; [reflexivity|].
  destruct (id_comes_from_random_draw one_client alice_hi no_text e0 e1 eq_refl)
    as (_ & H1 & H2 & _).
  split; [exact H1 | exact H2].
Defined.

(** An empty [color] is replaced by the default, not kept. *)
Lemma empty_color_is_replaced :
  is_post (Some empty_fields) = true
  /\ Js.prop empty_fields "color" = Some (Js.JStr "")
  /\ last (messages (exec (on_message (Some empty_fields) e0) one_client))
     = Some (message_of empty_fields e0)
  /\ color (message_of empty_fields e0) = Js.JStr "#ffffff"
  /\ color (message_of empty_fields e0) <> Js.JStr "".
Proof. repeat split; try reflexivity. discriminate. Qed.

Lemma author_and_color_default_witness :
  is_post (Some alice_hi) = true
  /\ user (message_of alice_hi e0) = Js.JStr "alice"
  /\ color (message_of no_text e0) = Js.JStr "#ffffff".
Proof.
  split; [reflexivity|].
  destruct (author_and_color_default one_client alice_hi e0 eq_refl)
    as (_ & Hu & _ & _ & _ & _ & _).
  destruct (author_and_color_default one_client no_text e0 eq_refl)
    as (_ & _ & _ & _ & Hc & _ & _).
  split; [apply (Hu "alice"); [reflexivity|discriminate] | apply Hc; by left].
Defined.

End HubFacts.

(** * Properties of the relay *)

Module RelayFacts.
Import Eff Relay RelaySamples.

Ltac run_handler :=
  cbv [handle exec proxy url_required try_catch relay relay_failed arrayBuffer
       bind emit modify fetch ret throw].

(** ** The traces of the handler *)

Lemma handle_no_url net :
  handle None net = [ResStatus 400; ResJson [("error", "URL is required")]].
Proof. reflexivity. Qed.

Lemma handle_empty_url net :
  handle (Some (QStr "")) net = [ResStatus 400; ResJson [("error", "URL is required")]].
Proof. reflexivity. Qed.

Lemma handle_timeout targetUrl net :
  truthy targetUrl = true -> (10000 <= latency net)%Z ->
  handle (Some targetUrl) net
  = [ConsoleLog targetUrl; SetTimeout 10000;
     Fetch targetUrl [("User-Agent", user_agent)];
     ConsoleError targetUrl (Js.Error "AbortError" "This operation was aborted");
     ResStatus 500;
     ResJson [("error", "Request timed out"); ("details", "This operation was aborted")]].
Proof.
  intros Hurl Hlate. apply Z.leb_le in Hlate.
  run_handler. rewrite Hurl, Hlate. reflexivity.
Qed.

Lemma handle_rejected targetUrl net cause :
  truthy targetUrl = true -> (latency net < 10000)%Z -> outcome net = Rejects cause ->
  handle (Some targetUrl) net
  = [ConsoleLog targetUrl; SetTimeout 10000;
     Fetch targetUrl [("User-Agent", user_agent)];
     ConsoleError targetUrl (Js.Error "TypeError" cause);
     ResStatus 500;
     ResJson [("error", "Failed to fetch URL"); ("details", cause)]].
Proof.
  intros Hurl Hfast Hout. apply Z.leb_gt in Hfast.
  run_handler. rewrite Hurl, Hfast, Hout. reflexivity.
Qed.

Lemma handle_resolved targetUrl net r :
  truthy targetUrl = true -> (latency net < 10000)%Z -> outcome net = Resolves r ->
  handle (Some targetUrl) net
  = [ConsoleLog targetUrl; SetTimeout 10000;
     Fetch targetUrl [("User-Agent", user_agent)]; ClearTimeout]
    ++ content_type_call (headers_get "content-type" (headers r))
    ++ [ResSetHeader "Access-Control-Allow-Origin" "*";
        ResSetHeader "X-Frame-Options" "ALLOWALL";
        ResSetHeader "Content-Security-Policy" "frame-ancestors *"]
    ++ match body r with
       | BodyOk bytes => [ResSend bytes]
       | BodyFails cause =>
           [ConsoleError targetUrl (Js.Error "TypeError" cause);
            ResStatus 500;
            ResJson [("error", "Failed to fetch URL"); ("details", cause)]]
       end.
Proof.
  intros Hurl Hfast Hout. apply Z.leb_gt in Hfast.
  run_handler. rewrite Hurl, Hfast, Hout. cbn [negb].
  unfold content_type_call.
  destruct (headers_get "content-type" (headers r)) as [c|];
    [destruct (String.eqb c "")|]; destruct (body r); reflexivity.
Qed.

(** ** Requests without a target *)

(** C7.  When the query has no [url], or an empty one, the handler
    answers 400 with the error ["URL is required"] and does nothing
    else: no request goes out. *)
Theorem missing_url_is_rejected (url : option qval) (net : upstream)
    (Hurl : url = None \/ url = Some (QStr "")) :
  handle url net = [ResStatus 400; ResJson [("error", "URL is required")]]
  /\ fetches (handle url net) = []
  /\ sent_status (handle url net) = Some 400%Z
  /\ sent_body (handle url net) = Some (Json [("error", "URL is required")]).
Proof.
  destruct Hurl as [-> | ->]; by repeat split.
Qed.

Lemma missing_url_is_rejected_witness :
  (Some (QStr "") = None \/ Some (QStr "") = Some (QStr ""))
  /\ fetches (handle (Some (QStr "")) (quick page)) = [].
Proof.
  assert (H : Some (QStr "") = None \/ Some (QStr "") = Some (QStr "")) by (right; reflexivity).
  split; [exact H|].
  destruct (missing_url_is_rejected (Some (QStr "")) (quick page) H) as (_ & Hf & _).
  exact Hf.
Defined.

(** ** Failures *)

(** C3, as the code has it.  When the promise of [fetch] has not
    settled 10000 ms after dispatch, the handler answers 500 with the error ["Request timed
    out"], having made one request and written no body of the
    upstream.  A transport failure that comes before the deadline,
    from [fetch] or while the body is read, is answered 500 with the
    error ["Failed to fetch URL"].  The two answers differ, and neither
    is a 200. *)
Theorem timeout_is_told_apart
    (targetUrl : qval) (net net' : upstream) (cause : string)
    (Hurl : truthy targetUrl = true)
    (Hlate : (10000 < latency net)%Z)
    (Hfast : (latency net' < 10000)%Z)
    (Hfail : outcome net' = Rejects cause
             \/ exists r, outcome net' = Resolves r /\ body r = BodyFails cause) :
  let timed_out := handle (Some targetUrl) net in
  let failed := handle (Some targetUrl) net' in
  timed_out
  = [ConsoleLog targetUrl; SetTimeout 10000;
     Fetch targetUrl [("User-Agent", user_agent)];
     ConsoleError targetUrl (Js.Error "AbortError" "This operation was aborted");
     ResStatus 500;
     ResJson [("error", "Request timed out"); ("details", "This operation was aborted")]]
  /\ sent_status timed_out = Some 500%Z
  /\ sent_body timed_out
     = Some (Json [("error", "Request timed out");
                   ("details", "This operation was aborted")])
  /\ sent_status failed = Some 500%Z
  /\ sent_body failed = Some (Json [("error", "Failed to fetch URL"); ("details", cause)])
  /\ sent_body timed_out <> sent_body failed.
Proof.
  cbv zeta.
  assert (Ht := handle_timeout targetUrl net Hurl ltac:(lia)).
  rewrite Ht.
  assert (Hf : sent_status (handle (Some targetUrl) net') = Some 500%Z
               /\ sent_body (handle (Some targetUrl) net')
                  = Some (Json [("error", "Failed to fetch URL"); ("details", cause)])).
  { destruct Hfail as [Hout | (r & Hout & Hbody)].
    - rewrite (handle_rejected targetUrl net' cause) by done. by split.
    - rewrite (handle_resolved targetUrl net' r) by done. rewrite Hbody.
      unfold content_type_call.
      destruct (headers_get "content-type" (headers r)) as [c|];
        [destruct (String.eqb c "")|]; by split. }
  destruct Hf as [Hs Hb]. rewrite Hs, Hb.
  repeat split. discriminate.
Qed.

Lemma timeout_is_told_apart_witness :
  truthy example_com = true
  /\ (10000 < latency fifteen_seconds)%Z
  /\ (latency refused < 10000)%Z
  /\ sent_body (handle (Some example_com) fifteen_seconds)
     = Some (Json [("error", "Request timed out");
                   ("details", "This operation was aborted")])
  /\ sent_body (handle (Some example_com) refused)
     = Some (Json [("error", "Failed to fetch URL"); ("details", "fetch failed")]).
Proof.
  assert (Hlate : (10000 < latency fifteen_seconds)%Z) by reflexivity.
  assert (Hfast : (latency refused < 10000)%Z) by reflexivity.
  split; [reflexivity|]. split; [exact Hlate|]. split; [exact Hfast|].
  destruct (timeout_is_told_apart example_com fifteen_seconds refused "fetch failed"
              eq_refl Hlate Hfast (or_introl eq_refl))
    as (_ & _ & Ht & _ & Hf & _).
  split; [exact Ht | exact Hf].
Defined.

(** The deadline covers [fetch] only: once the headers are in, the
    timer is cleared, and a body that takes twenty seconds is relayed. *)
Example slow_body_is_relayed :
  sent_status (handle (Some example_com) (quick slow_body)) = Some 200%Z
  /\ sent_body (handle (Some example_com) (quick slow_body)) = Some (Bytes [x00; x00]).
Proof. by split. Qed.

(** A call that lasts more than ten seconds without timing out: the
    headers are in after 120 ms, the body takes twenty seconds, and
    the answer is a 200 with the body, not the time-out error. *)
Lemma slow_call_is_not_timed_out :
  (latency (quick slow_body) < 10000)%Z
  /\ (10000 < RelayWords.answered_after (quick slow_body))%Z
  /\ sent_status (handle (Some example_com) (quick slow_body)) = Some 200%Z
  /\ sent_body (handle (Some example_com) (quick slow_body)) = Some (Bytes [x00; x00])
  /\ sent_body (handle (Some example_com) (quick slow_body))
     <> Some (Json [("error", "Request timed out");
                    ("details", "This operation was aborted")]).
Proof. repeat split; try reflexivity. discriminate. Qed.

(** ** Relayed responses *)

(** C4, as the code has it.  When [fetch] resolves before the deadline
    and the body is read, the handler answers 200 with the whole body
    after one request; when the body is written the response has the
    three headers [Access-Control-Allow-Origin: *], [X-Frame-Options:
    ALLOWALL] and [Content-Security-Policy: frame-ancestors *],
    whatever the upstream sent, and the upstream's [Content-Type] when
    that is present and not empty; an absent or empty one is not set. *)
Theorem success_carries_body_and_headers
    (targetUrl : qval) (net : upstream) (r : Response) (bytes : list byte)
    (Hurl : truthy targetUrl = true)
    (Hfast : (latency net < 10000)%Z)
    (Hout : outcome net = Resolves r)
    (Hbody : body r = BodyOk bytes) :
  let t := handle (Some targetUrl) net in
  let ct := headers_get "content-type" (headers r) in
  sent_status t = Some 200%Z
  /\ sent_body t = Some (Bytes bytes)
  /\ fetches t = [Fetch targetUrl [("User-Agent", user_agent)]]
  /\ sent_header t "Access-Control-Allow-Origin" = Some "*"
  /\ sent_header t "X-Frame-Options" = Some "ALLOWALL"
  /\ sent_header t "Content-Security-Policy" = Some "frame-ancestors *"
  /\ (forall c, ct = Some c -> c <> "" -> sent_header t "Content-Type" = Some c)
  /\ (ct = None \/ ct = Some "" -> sent_header t "Content-Type" = None).
Proof.
  cbv zeta. rewrite (handle_resolved targetUrl net r) by done. rewrite Hbody.
  unfold content_type_call.
  destruct (headers_get "content-type" (headers r)) as [c|].
  - destruct (String.eqb_spec c "") as [->|Hne]; cbn [negb].
    + repeat split; try reflexivity. intros c [= <-] Hc. done.
    + repeat split; try reflexivity.
      * intros c' [= <-] _. reflexivity.
      * intros [?|[= ->]]; done.
  - repeat split; try reflexivity. intros c [=].
Qed.

Lemma success_carries_body_and_headers_witness :
  truthy example_com = true
  /\ (latency (quick page) < 10000)%Z
  /\ sent_body (handle (Some example_com) (quick page)) = Some (Bytes [x3c; x70; x3e])
  /\ sent_header (handle (Some example_com) (quick page)) "X-Frame-Options"
     = Some "ALLOWALL"
  /\ sent_header (handle (Some example_com) (quick page)) "Content-Type"
     = Some "text/html; charset=utf-8".
Proof.
  assert (Hfast : (latency (quick page) < 10000)%Z) by reflexivity.
  split; [reflexivity|]. split; [exact Hfast|].
  destruct (success_carries_body_and_headers example_com (quick page) page
              [x3c; x70; x3e] eq_refl Hfast eq_refl eq_refl)
    as (_ & Hb & _ & _ & Hx & _ & Hc & _).
  split; [exact Hb|]. split; [exact Hx|].
  apply (Hc "text/html; charset=utf-8"); [reflexivity | discriminate].
Defined.

(** An upstream [Content-Type] that is present with an empty value is
    not carried by the response. *)
Lemma empty_content_type_is_dropped :
  headers_get "content-type" (headers untyped_page) = Some ""
  /\ sent_status (handle (Some example_com) (quick untyped_page)) = Some 200%Z
  /\ sent_body (handle (Some example_com) (quick untyped_page))
     = Some (Bytes [x3c; x70; x3e])
  /\ sent_header (handle (Some example_com) (quick untyped_page)) "Content-Type" = None
  /\ sent_header (handle (Some example_com) (quick untyped_page)) "Content-Type"
     <> headers_get "content-type" (headers untyped_page).
Proof. repeat split; try reflexivity. discriminate. Qed.

End RelayFacts.

(** * More on the hub *)

Module HubMore.
Import Eff Hub Samples HubFacts.

(** ** Leaving *)

Lemma set_delete_twice ws cs : set_delete ws (set_delete ws cs) = set_delete ws cs.
Proof.
  unfold set_delete. induction cs as [|c cs IH]; [reflexivity|].
  cbn [List.filter]. destruct (negb (c =? ws)) eqn:Hc; [|exact IH].
  cbn [List.filter]. rewrite Hc. by f_equal.
Qed.

(** X1.  The ["close"] listener takes the socket out of the set and
    touches nothing else: the other members stay, in their order,
    nothing is sent, the history is kept; running it a second time
    changes nothing. *)
Theorem close_only_leaves (ws c : nat) (h : hub) :
  let h' := exec (on_close ws) h in
  (ws ∉ clients h')
  /\ (c ∈ clients h' <-> c ∈ clients h /\ c <> ws)
  /\ sublist (clients h') (clients h)
  /\ messages h' = messages h /\ sent h' = sent h /\ sockets h' = sockets h
  /\ exec (on_close ws) h' = h'.
Proof.
  cbv zeta. cbn [exec on_close clients_delete modify fst clients messages sent sockets].
  split; [|split; [|split; [|split; [|split; [|split]]]]]; try reflexivity.
  - rewrite set_delete_elem_of. tauto.
  - apply set_delete_elem_of.
  - unfold set_delete. induction (clients h) as [|x l IH]; [constructor|].
    cbn [List.filter]. destruct (negb (x =? ws)); by constructor.
  - by rewrite set_delete_twice.
Qed.

Lemma run_app evs evs' h : run (evs ++ evs') h = run evs' (run evs h).
Proof. unfold run. apply fold_left_app. Qed.

Lemma left_socket_is_silent ws h evs :
  ws ∉ clients h -> ws < length (sockets h) ->
  frames_to ws (sent (run evs h)) = frames_to ws (sent h)
  /\ (ws ∉ clients (run evs h))
  /\ ws < length (sockets (run evs h)).
Proof.
  intros Hout Hws. induction evs as [|ev evs (IHf & IHc & IHs)] using rev_ind.
  - by repeat split.
  - rewrite run_snoc.
    destruct (step_shape (run evs h) ev) as [Hev|m Hm|errs Hq|w Hq|w st Hq];
      cbn [logged joined store complained sent clients sockets].
    + rewrite frames_to_app, frames_to_one. cbn [target].
      destruct (Nat.eqb_spec (length (sockets (run evs h))) ws) as [Heq|Hne]; [lia|].
      rewrite app_nil_r, length_app. cbn [length]. repeat split; [done| |lia].
      intros [->|Hin]%set_add_elem_of; [lia|done].
    + rewrite frames_to_app, fanout_members by done. rewrite app_nil_r. by repeat split.
    + by repeat split.
    + repeat split; [done| |done]. by intros [? _]%set_delete_elem_of.
    + rewrite length_insert. by repeat split.
Qed.

(** X2.  Once the ["close"] listener of an existing socket has run,
    nothing is ever sent on that socket again, whatever happens
    afterwards. *)
Theorem nothing_sent_after_close (evs evs' : list event) (ws : nat)
    (Hws : ws < length (sockets (run evs init_hub))) :
  frames_to ws (sent (run (evs ++ Close ws :: evs') init_hub))
  = frames_to ws (sent (run evs init_hub))
  /\ (ws ∉ clients (run (evs ++ Close ws :: evs') init_hub)).
Proof.
  rewrite run_app.
  change (run (Close ws :: evs') (run evs init_hub))
    with (run evs' (exec (on_close ws) (run evs init_hub))).
  destruct (left_socket_is_silent ws (exec (on_close ws) (run evs init_hub)) evs')
    as (Hf & Hc & _).
  - cbn. rewrite set_delete_elem_of. tauto.
  - exact Hws.
  - split; [exact Hf | exact Hc].
Qed.

Lemma nothing_sent_after_close_witness :
  0 < length (sockets (run [Connection; Connection] init_hub))
  /\ frames_to 0 (sent (run ([Connection; Connection]
                               ++ Close 0 :: [Message 1 (Some alice_hi) e0; Connection])
                             init_hub))
     = [FInit []].
Proof.
  assert (H : 0 < length (sockets (run [Connection; Connection] init_hub)))
    by (vm_compute; lia).
  split; [exact H|].
  destruct (nothing_sent_after_close [Connection; Connection]
              [Message 1 (Some alice_hi) e0; Connection] 0 H) as [Hf _].
  exact Hf.
Defined.

(** ** Delivery *)

(** X3.  Along every run, an accepted post calls [send] exactly once on
    each member of the set that is OPEN, the sender included, and on
    nothing else. *)
Theorem post_is_delivered_once
    (evs : list event) (payload : Js.json) (e : env) (ws : nat)
    (Hp : is_post (Some payload) = true) :
  let h := run evs init_hub in
  frames_to ws (sent (exec (on_message (Some payload) e) h))
  = frames_to ws (sent h)
    ++ (if bool_decide (ws ∈ clients h) && is_open (readyState h ws)
        then [FMessage (message_of payload e)] else []).
Proof.
  cbv zeta. unfold exec. rewrite on_message_post by done.
  cbn [fst logged store sent]. rewrite frames_to_app. f_equal.
  apply fanout_frames, clients_NoDup.
Qed.

Lemma post_is_delivered_once_witness :
  is_post (Some alice_hi) = true
  /\ frames_to 1 (sent (exec (on_message (Some alice_hi) e0) one_closing))
     = [FInit []; FMessage (message_of alice_hi e0)]
  /\ frames_to 0 (sent (exec (on_message (Some alice_hi) e0) one_closing))
     = [FInit []].
Proof.
  split; [reflexivity|]. split.
  - exact (post_is_delivered_once [Connection; Connection; Transport 0 CLOSING]
             alice_hi e0 1 eq_refl).
  - exact (post_is_delivered_once [Connection; Connection; Transport 0 CLOSING]
             alice_hi e0 0 eq_refl).
Defined.

(** X4.  A connection that joins after any run is sent, as its
    snapshot, the last 50 of the messages posted so far, in arrival
    order. *)
Theorem late_joiner_gets_last_50 (evs : list event) :
  let h := run evs init_hub in
  sent (run (evs ++ [Connection]) init_hub)
  = sent h ++ [{| target := length (sockets h); at_state := OPEN;
                  payload := FInit (drop (length (posted evs) - 50) (posted evs)) |}].
Proof.
  cbv zeta. rewrite run_snoc. unfold exec. rewrite connection_eq.
  cbn [fst logged joined sent]. by destruct (history_window evs) as [-> _].
Qed.

(** X5.  Inbound data that is not a post never sends, stores or
    disconnects anything: text that is not JSON and the value [null]
    leave one line on the console, everything else leaves no trace at
    all. *)
Theorem bad_data_is_only_logged (h : hub) (data : option Js.json) (e : env)
    (Hd : is_post data = false) :
  on_message data e h
  = (complained h
       match data with
       | None => [Js.Error "SyntaxError" "Unexpected token"]
       | Some Js.JNull => [Js.Error "TypeError" "Cannot read properties of null"]
       | Some _ => []
       end, Ok tt).
Proof.
  destruct data as [payload|]; [|reflexivity].
  destruct payload as [|b|x|s|items|fields]; try reflexivity;
    try (by rewrite complained_nil).
  rewrite complained_nil. simpl in Hd.
  unfold on_message, try_catch, JSON_parse.
  unfold bind at 1. unfold ret at 1.
  unfold bind at 1. rewrite get_object. cbn [Js.prop]. by rewrite Hd.
Qed.

Lemma bad_data_is_only_logged_witness :
  is_post None = false /\ is_post (Some ping) = false
  /\ exec (on_message (Some ping) e0) one_client = one_client
  /\ console (exec (on_message None e0) one_client)
     = [Js.Error "SyntaxError" "Unexpected token"]
  /\ sent (exec (on_message None e0) one_client) = sent one_client.
Proof.
  split; [reflexivity|]. split; [reflexivity|].
  pose proof (bad_data_is_only_logged one_client (Some ping) e0 eq_refl) as H1.
  pose proof (bad_data_is_only_logged one_client None e0 eq_refl) as H2.
  unfold exec. rewrite H1, H2. by repeat split.
Defined.

(** ** Members *)

(** X6.  Along every run the connection set has no duplicates, and
    each of its members is an existing socket that has been sent its
    snapshot, followed only by broadcasts. *)
Theorem members_were_greeted (evs : list event) (ws : nat)
    (Hin : ws ∈ clients (run evs init_hub)) :
  let h := run evs init_hub in
  NoDup (clients h)
  /\ ws < length (sockets h)
  /\ exists snapshot later,
       frames_to ws (sent h) = FInit snapshot :: later
       /\ forallb is_broadcast later = true.
Proof.
  cbv zeta. destruct (snapshot_first evs ws) as (I1 & I2 & I3).
  specialize (I2 Hin).
  split; [apply clients_NoDup|]. split.
  - destruct (Nat.lt_ge_cases ws (length (sockets (run evs init_hub)))) as [|Hge];
      [done|]. by apply I3 in Hge.
  - destruct (frames_to ws (sent (run evs init_hub))) as [|f later]; [done|].
    cbn [init_first] in I1. apply andb_true_iff in I1 as [Hi Hb].
    destruct f as [snapshot|m]; [|discriminate]. by exists snapshot, later.
Qed.

Lemma members_were_greeted_witness :
  1 ∈ clients one_closing
  /\ exists snapshot later, frames_to 1 (sent one_closing) = FInit snapshot :: later.
Proof.
  assert (H : 1 ∈ clients (run [Connection; Connection; Transport 0 CLOSING] init_hub)).
  { vm_compute. apply list_elem_of_further, list_elem_of_here. }
  split; [exact H|].
  destruct (members_were_greeted [Connection; Connection; Transport 0 CLOSING] 1 H)
    as (_ & _ & snapshot & later & Hf & _).
  by exists snapshot, later.
Defined.

(** ** What a connected client shows *)

Lemma shown_broadcasts acc ms :
  fold_left Client.onmessage (map FMessage ms) acc = acc ++ ms.
Proof.
  revert acc. induction ms as [|m ms IH]; intros acc; cbn.
  - by rewrite app_nil_r.
  - rewrite IH, <- app_assoc. reflexivity.
Qed.

Lemma readyState_open_lt h ws : readyState h ws = OPEN -> ws < length (sockets h).
Proof.
  unfold readyState. intros Ho.
  destruct (sockets h !! ws) eqn:Hl; [by eapply lookup_lt_Some|discriminate].
Qed.

Lemma posted_join evs1 evs2 :
  posted (evs1 ++ Connection :: evs2) = posted evs1 ++ posted evs2.
Proof. unfold posted. by rewrite flat_map_app. Qed.

Lemma connected_frames evs1 evs2 :
  let ws := length (sockets (run evs1 init_hub)) in
  forallb (Client.stays ws) evs2 = true ->
  let h := run (evs1 ++ Connection :: evs2) init_hub in
  ws ∈ clients h
  /\ readyState h ws = OPEN
  /\ frames_to ws (sent h)
     = FInit (messages (run evs1 init_hub)) :: map FMessage (posted evs2).
Proof.
  cbv zeta. set (ws := length (sockets (run evs1 init_hub))).
  induction evs2 as [|ev evs2 IH] using rev_ind; intros Hstay.
  - rewrite run_snoc. unfold exec. rewrite connection_eq.
    cbn [fst logged joined clients sockets sent]. fold ws. split; [|split].
    + apply set_add_elem_of. by left.
    + unfold readyState. cbn [sockets logged joined]. subst ws.
      by rewrite lookup_fresh_open.
    + rewrite frames_to_app, frames_to_one. cbn [target payload].
      rewrite Nat.eqb_refl.
      destruct (snapshot_first evs1 ws) as (_ & _ & I3).
      rewrite I3 by (subst ws; lia). reflexivity.
  - rewrite forallb_app in Hstay. apply andb_true_iff in Hstay as [Hstay Hev].
    cbn [forallb] in Hev. rewrite andb_true_r in Hev.
    destruct (IH Hstay) as (Hin & Hopen & Hfr). clear IH.
    assert (Hnd := clients_NoDup (evs1 ++ Connection :: evs2)).
    assert (Hlt := readyState_open_lt _ _ Hopen).
    rewrite app_comm_cons, app_assoc, run_snoc, posted_snoc, map_app.
    set (h := run (evs1 ++ Connection :: evs2) init_hub) in *.
    destruct ev as [|w data e|w|w st].
    + unfold exec. rewrite connection_eq.
      cbn [fst logged joined clients sockets sent posted_by map]. split; [|split].
      * apply set_add_elem_of. by right.
      * unfold readyState in *. cbn [sockets logged joined]. by rewrite lookup_app_l.
      * rewrite frames_to_app, frames_to_one. cbn [target].
        destruct (Nat.eqb_spec (length (sockets h)) ws) as [Heq|_]; [lia|].
        by rewrite !app_nil_r.
    + destruct (is_post data) eqn:Hp.
      * destruct data as [payload|]; [|discriminate].
        unfold exec, step. rewrite on_message_post by done.
        cbn [fst logged store clients sent]. unfold posted_by. rewrite Hp.
        split; [done|]. split; [done|].
        rewrite frames_to_app, fanout_frames, Hfr by done.
        rewrite bool_decide_eq_true_2 by done. rewrite Hopen. reflexivity.
      * destruct (on_message_drop data e h Hp) as [errs Heq].
        unfold exec, step. rewrite Heq.
        cbn [fst complained clients sent].
        replace (posted_by (Message w data e)) with (@nil ChatMessage)
          by (unfold posted_by; destruct data; [by rewrite Hp|done]).
        cbn [map]. rewrite app_nil_r. by repeat split.
    + cbn [Client.stays] in Hev. apply negb_true_iff, Nat.eqb_neq in Hev.
      cbn [exec step on_close clients_delete modify fst clients sent posted_by map].
      rewrite app_nil_r. split; [|by split].
      apply set_delete_elem_of. split; [done|congruence].
    + cbn [Client.stays] in Hev. apply negb_true_iff, Nat.eqb_neq in Hev.
      cbn [exec step set_ready modify fst clients sent posted_by map].
      rewrite app_nil_r. split; [done|]. split; [|done].
      unfold readyState in *. cbn [sockets].
      by rewrite list_lookup_insert_ne.
Qed.

(** X7.  For a socket that joins and then stays in the set and OPEN,
    the list its client builds from the frames it is sent is the
    snapshot followed by every message posted since, in order; the
    history of the server is the last 50 entries of that list. *)
Theorem connected_client_shows_history (evs1 evs2 : list event)
    (Hstay : forallb (Client.stays (length (sockets (run evs1 init_hub)))) evs2 = true) :
  let ws := length (sockets (run evs1 init_hub)) in
  let h := run (evs1 ++ Connection :: evs2) init_hub in
  let view := Client.shown (frames_to ws (sent h)) in
  view = messages (run evs1 init_hub) ++ posted evs2
  /\ messages h = drop (length view - 50) view.
Proof.
  cbv zeta. destruct (connected_frames evs1 evs2 Hstay) as (_ & _ & ->).
  unfold Client.shown. cbn [fold_left Client.onmessage]. rewrite shown_broadcasts.
  split; [reflexivity|].
  destruct (history_window (evs1 ++ Connection :: evs2)) as [-> _].
  destruct (history_window evs1) as [-> _].
  rewrite posted_join.
  rewrite <- drop_app_le by lia.
  rewrite drop_drop. f_equal.
  rewrite length_drop, !length_app. lia.
Qed.

Lemma connected_client_shows_history_witness :
  forallb (Client.stays (length (sockets (run [Message 0 (Some alice_hi) e0] init_hub))))
          [Message 0 (Some empty_fields) e1; Connection; Close 1] = true
  /\ Client.shown
       (frames_to 0 (sent (run ([Message 0 (Some alice_hi) e0]
                                  ++ Connection
                                  :: [Message 0 (Some empty_fields) e1; Connection; Close 1])
                               init_hub)))
     = [message_of alice_hi e0; message_of empty_fields e1].
Proof.
  split; [reflexivity|].
  destruct (connected_client_shows_history [Message 0 (Some alice_hi) e0]
              [Message 0 (Some empty_fields) e1; Connection; Close 1] eq_refl)
    as [Hv _].
  exact Hv.
Defined.

End HubMore.

(** * Properties of the relay, continued *)

Module RelayMore.
Import Eff Relay RelayWords RelaySamples MoreSamples RelayFacts.

Lemma handle_falsy targetUrl net :
  truthy targetUrl = false ->
  handle (Some targetUrl) net = [ResStatus 400; ResJson [("error", "URL is required")]].
Proof. intros Hurl. run_handler. by rewrite Hurl. Qed.

(** The four ways a request with a target can go. *)
Lemma handle_cases targetUrl net :
  truthy targetUrl = true ->
  exists middle last,
    handle (Some targetUrl) net
    = [ConsoleLog targetUrl; SetTimeout 10000;
       Fetch targetUrl [("User-Agent", user_agent)]] ++ middle ++ [last]
    /\ List.filter is_fetch middle = []
    /\ List.filter is_write middle = []
    /\ is_write last = true.
Proof.
  intros Hurl.
  destruct (Z.le_gt_cases 10000 (latency net)) as [Hlate|Hfast].
  - rewrite handle_timeout by done.
    by exists [ConsoleError targetUrl (Js.Error "AbortError" "This operation was aborted");
               ResStatus 500],
              (ResJson [("error", "Request timed out");
                        ("details", "This operation was aborted")]).
  - destruct (outcome net) as [r|cause] eqn:Hout.
    + rewrite (handle_resolved targetUrl net r) by (done || lia).
      exists (ClearTimeout
                :: content_type_call (headers_get "content-type" (headers r))
                ++ [ResSetHeader "Access-Control-Allow-Origin" "*";
                    ResSetHeader "X-Frame-Options" "ALLOWALL";
                    ResSetHeader "Content-Security-Policy" "frame-ancestors *"]
                ++ match body r with
                   | BodyOk _ => []
                   | BodyFails cause =>
                       [ConsoleError targetUrl (Js.Error "TypeError" cause); ResStatus 500]
                   end),
             match body r with
             | BodyOk bytes => ResSend bytes
             | BodyFails cause =>
                 ResJson [("error", "Failed to fetch URL"); ("details", cause)]
             end.
      unfold content_type_call.
      destruct (headers_get "content-type" (headers r)) as [c|];
        [destruct (String.eqb c "")|]; cbn [negb app];
        destruct (body r) as [bytes|cause]; by repeat split.
    + rewrite (handle_rejected targetUrl net cause) by (done || lia).
      by exists [ConsoleError targetUrl (Js.Error "TypeError" cause); ResStatus 500],
                (ResJson [("error", "Failed to fetch URL"); ("details", cause)]).
Qed.

Lemma write_is_no_fetch e : is_write e = true -> is_fetch e = false.
Proof. by destruct e. Qed.

Lemma fetches_of_target targetUrl net :
  truthy targetUrl = true ->
  fetches (handle (Some targetUrl) net) = [Fetch targetUrl [("User-Agent", user_agent)]].
Proof.
  intros Hurl.
  destruct (handle_cases targetUrl net Hurl) as (middle & last & -> & Hf & _ & Hw).
  unfold fetches. rewrite !List.filter_app, Hf. cbn [List.filter is_fetch app].
  by rewrite (write_is_no_fetch last Hw).
Qed.

Lemma serve_printable targetUrl net str :
  RelayFull.to_string targetUrl = Some str ->
  RelayFull.serve (Some targetUrl) net = proxy (Some targetUrl) net [].
Proof.
  intros Hs. unfold RelayFull.serve, RelayFull.proxy, proxy.
  destruct (negb (truthy targetUrl)); [reflexivity|].
  unfold try_catch, RelayFull.template. rewrite Hs.
  unfold bind at 1. unfold ret at 1.
  destruct (relay targetUrl net []) as [t [a|e]]; [reflexivity|].
  unfold bind at 1. reflexivity.
Qed.

Lemma serve_unprintable targetUrl net :
  truthy targetUrl = true -> RelayFull.to_string targetUrl = None ->
  RelayFull.serve (Some targetUrl) net
  = ([], Throw (Js.Error "TypeError" "Cannot convert object to primitive value")).
Proof.
  intros Hurl Hs. unfold RelayFull.serve, RelayFull.proxy. rewrite Hurl. cbn [negb].
  unfold try_catch, RelayFull.template. rewrite Hs. reflexivity.
Qed.

Lemma proxy_returns url net : snd (proxy url net []) = Ok tt.
Proof.
  assert (Hbad : snd (url_required []) = Ok tt) by reflexivity.
  destruct url as [targetUrl|]; [|exact Hbad]. unfold proxy.
  destruct (truthy targetUrl) eqn:Hurl; [|exact Hbad]. cbn [negb].
  unfold try_catch.
  destruct (Z.le_gt_cases 10000 (latency net)) as [Hlate|Hfast].
  - apply Z.leb_le in Hlate.
    cbv [relay relay_failed arrayBuffer bind emit modify fetch ret throw].
    by rewrite Hlate.
  - apply Z.leb_gt in Hfast.
    cbv [relay relay_failed arrayBuffer bind emit modify fetch ret throw].
    rewrite Hfast. destruct (outcome net) as [r|cause]; [|reflexivity].
    destruct (headers_get "content-type" (headers r)) as [c|];
      [destruct (String.eqb c "")|]; cbn [negb]; by destruct (body r).
Qed.

(** X8.  The handler makes one outbound request, for the target as
    given and with the fixed [User-Agent], when the query has a truthy
    [url] that can be written into the log line, whatever the upstream
    then does.  It makes none when [url] is absent or empty, and none
    when the target is an object that cannot be converted to a string:
    the log line throws before [fetch] is called.  It never asks
    twice. *)
Theorem one_request_per_call (url : option qval) (net : upstream) :
  fetches (fst (RelayFull.serve url net))
  = match url with
    | Some targetUrl =>
        if truthy targetUrl && negb (RelayFull.unprintable url)
        then [Fetch targetUrl [("User-Agent", user_agent)]] else []
    | None => []
    end.
Proof.
  destruct url as [targetUrl|]; [|reflexivity].
  unfold RelayFull.unprintable.
  destruct (truthy targetUrl) eqn:Hurl; cbn [andb negb].
  - destruct (RelayFull.to_string targetUrl) as [str|] eqn:Hs; cbn [negb].
    + rewrite (serve_printable targetUrl net str Hs).
      by apply fetches_of_target.
    + by rewrite serve_unprintable.
  - unfold RelayFull.serve, RelayFull.proxy. by rewrite Hurl.
Qed.

(** X9.  The handler never answers twice.  When the target can be
    written into the log lines, or is absent or empty, the handler
    returns normally having written exactly one body, as its last
    effect, however [fetch] and the body read settle.  When the target
    is an object that cannot be converted to a string, the log line of
    the [try] block throws, the one of the [catch] block throws again,
    and the handler ends with that error without having done
    anything: no request, no status, no body. *)
Theorem answers_once_or_throws (url : option qval) (net : upstream) :
  if RelayFull.unprintable url
  then RelayFull.serve url net
       = ([], Throw (Js.Error "TypeError" "Cannot convert object to primitive value"))
  else snd (RelayFull.serve url net) = Ok tt
       /\ exists before answer,
            fst (RelayFull.serve url net) = before ++ [answer]
            /\ is_write answer = true
            /\ List.filter is_write before = [].
Proof.
  assert (Hold : snd (proxy url net []) = Ok tt
                 /\ exists before answer,
                      fst (proxy url net []) = before ++ [answer]
                      /\ is_write answer = true
                      /\ List.filter is_write before = []).
  { split; [apply proxy_returns|].
    assert (Hbad : exists before answer,
               [ResStatus 400; ResJson [("error", "URL is required")]] = before ++ [answer]
               /\ is_write answer = true /\ List.filter is_write before = []).
    { by exists [ResStatus 400], (ResJson [("error", "URL is required")]). }
    change (fst (proxy url net [])) with (handle url net).
    destruct url as [targetUrl|]; [|exact Hbad].
    destruct (truthy targetUrl) eqn:Hurl.
    - destruct (handle_cases targetUrl net Hurl) as (middle & last & -> & _ & Hm & Hw).
      exists ([ConsoleLog targetUrl; SetTimeout 10000;
               Fetch targetUrl [("User-Agent", user_agent)]] ++ middle), last.
      split; [by rewrite app_assoc|]. split; [done|].
      by rewrite List.filter_app, Hm.
    - rewrite handle_falsy by done. exact Hbad. }
  destruct url as [targetUrl|]; [|exact Hold].
  unfold RelayFull.unprintable.
  destruct (truthy targetUrl) eqn:Hurl; cbn [andb].
  - destruct (RelayFull.to_string targetUrl) as [str|] eqn:Hs.
    + by rewrite (serve_printable targetUrl net str Hs).
    + by apply serve_unprintable.
  - unfold RelayFull.serve, RelayFull.proxy in *. unfold proxy in Hold.
    by rewrite Hurl in *.
Qed.

(** What Express makes of [?url[toString]=x] is dropped without an
    answer; two [url] parameters are fetched as one joined target. *)
Example odd_targets :
  RelayFull.serve (Some no_to_string) (quick page)
  = ([], Throw (Js.Error "TypeError" "Cannot convert object to primitive value"))
  /\ RelayFull.to_string two_urls = Some "a.example,b.example"
  /\ fetches (fst (RelayFull.serve (Some two_urls) refused))
     = [Fetch two_urls [("User-Agent", user_agent)]].
Proof. by repeat split. Qed.

(** X10.  Of what the upstream answers, only the body and the
    [Content-Type] reach the caller: two upstream responses that agree
    on these give the same run of the handler, whatever their status
    and their other headers are. *)
Theorem only_body_and_type_are_relayed
    (targetUrl : qval) (delay : Z) (r r' : Response)
    (Hct : headers_get "content-type" (headers r)
           = headers_get "content-type" (headers r'))
    (Hbody : body r = body r') :
  handle (Some targetUrl) {| latency := delay; outcome := Resolves r |}
  = handle (Some targetUrl) {| latency := delay; outcome := Resolves r' |}.
Proof.
  destruct (truthy targetUrl) eqn:Hurl; [|by rewrite !handle_falsy].
  destruct (Z.le_gt_cases 10000 delay) as [Hlate|Hfast].
  - by rewrite !handle_timeout.
  - rewrite (handle_resolved targetUrl _ r), (handle_resolved targetUrl _ r')
      by (done || cbn; lia).
    by rewrite Hct, Hbody.
Qed.

Lemma only_body_and_type_are_relayed_witness :
  headers_get "content-type" (headers page) = headers_get "content-type" (headers not_found)
  /\ body page = body not_found
  /\ sent_status (handle (Some example_com) {| latency := 120; outcome := Resolves not_found |})
     = Some 200%Z
  /\ sent_header (handle (Some example_com) {| latency := 120; outcome := Resolves not_found |})
       "set-cookie" = None.
Proof.
  split; [reflexivity|]. split; [reflexivity|].
  rewrite <- (only_body_and_type_are_relayed example_com 120 page not_found
                eq_refl eq_refl).
  by split.
Defined.

(** X11.  When the body cannot be read after [fetch] has resolved, the
    error goes out with status 500 on a response that already has the
    three embedding headers and the upstream's [Content-Type]; the
    timer was armed once and cleared. *)
Theorem failed_body_is_answered_late
    (targetUrl : qval) (net : upstream) (r : Response) (cause : string)
    (Hurl : truthy targetUrl = true)
    (Hfast : (latency net < 10000)%Z)
    (Hout : outcome net = Resolves r)
    (Hbody : body r = BodyFails cause) :
  let t := handle (Some targetUrl) net in
  sent_status t = Some 500%Z
  /\ sent_body t = Some (Json [("error", "Failed to fetch URL"); ("details", cause)])
  /\ sent_header t "Access-Control-Allow-Origin" = Some "*"
  /\ sent_header t "X-Frame-Options" = Some "ALLOWALL"
  /\ sent_header t "Content-Security-Policy" = Some "frame-ancestors *"
  /\ sent_header t "Content-Type"
     = match headers_get "content-type" (headers r) with
       | Some c => if String.eqb c "" then None else Some c
       | None => None
       end
  /\ List.filter is_timer t = [SetTimeout 10000; ClearTimeout].
Proof.
  cbv zeta. rewrite (handle_resolved targetUrl net r) by done. rewrite Hbody.
  unfold content_type_call.
  destruct (headers_get "content-type" (headers r)) as [c|];
    [destruct (String.eqb c "")|]; by repeat split.
Qed.

Lemma failed_body_is_answered_late_witness :
  truthy example_com = true
  /\ (latency (quick broken_body) < 10000)%Z
  /\ sent_body (handle (Some example_com) (quick broken_body))
     = Some (Json [("error", "Failed to fetch URL"); ("details", "terminated")])
  /\ sent_header (handle (Some example_com) (quick broken_body)) "Content-Type"
     = Some "text/html".
Proof.
  assert (Hfast : (latency (quick broken_body) < 10000)%Z) by reflexivity.
  split; [reflexivity|]. split; [exact Hfast|].
  destruct (failed_body_is_answered_late example_com (quick broken_body) broken_body
              "terminated" eq_refl Hfast eq_refl eq_refl)
    as (_ & Hb & _ & _ & _ & Hc & _).
  split; [exact Hb | exact Hc].
Defined.

End RelayMore.

(** * Properties of the browser side *)

Module ClientFacts.
Import Hub Client Samples MoreSamples.

(** ** The address bar *)

Lemma prefix_append p s : String.prefix p (String.append p s) = true.
Proof.
  induction p as [|a p IH]; [by destruct s|].
  change (String.prefix (String a p) (String a (String.append p s)) = true).
  cbn [String.prefix].
  destruct (ascii_dec a a) as [_|Hne]; [exact IH|by destruct Hne].
Qed.

Lemma target_has_scheme u :
  JsText.startsWith (target_of u) "http://" = true
  \/ JsText.startsWith (target_of u) "https://" = true.
Proof.
  unfold target_of.
  destruct (JsText.includes (JsText.trim u) "." && negb (JsText.includes (JsText.trim u) " "));
    cbn [negb].
  - destruct (JsText.startsWith (JsText.trim u) "http://") eqn:H1; cbn [negb andb].
    + by left.
    + destruct (JsText.startsWith (JsText.trim u) "https://") eqn:H2; cbn [negb].
      * by right.
      * right. apply prefix_append.
  - right. apply (prefix_append "https://").
Qed.

Lemma target_not_empty u : target_of u <> "".
Proof.
  intros Heq. destruct (target_has_scheme u) as [H|H]; rewrite Heq in H; discriminate.
Qed.

(** The three kinds of input. *)
Example search_examples :
  target_of "  example.com " = "https://example.com"
  /\ target_of "http://x.y/z" = "http://x.y/z"
  /\ target_of "what is 2.5 + 3" = "https://www.google.com/search?q=what%20is%202.5%20%2B%203"
  /\ proxiedUrl (handleSearch (bar "cats"))
     = Some "/api/proxy?url=https%3A%2F%2Fwww.google.com%2Fsearch%3Fq%3Dcats".
Proof. vm_compute. by repeat split. Qed.

Lemma hex_safe d : (d < 16)%N -> query_safe (JsText.hex d) = true.
Proof.
  intros Hd. destruct d as [|p]; [reflexivity|].
  do 4 (destruct p as [p|p|]; try reflexivity); lia.
Qed.

Lemma unreserved_safe c : JsText.unreserved (N_of_ascii c) = true -> query_safe c = true.
Proof. intros H. unfold query_safe. by rewrite H. Qed.

Lemma encoding_is_safe s :
  forallb query_safe (list_ascii_of_string (JsText.encodeURIComponent s)) = true.
Proof.
  induction s as [|c s IH]; [reflexivity|].
  cbn [JsText.encodeURIComponent].
  destruct (JsText.unreserved (N_of_ascii c)) eqn:Hc.
  - cbn [list_ascii_of_string forallb]. by rewrite unreserved_safe, IH.
  - cbn [list_ascii_of_string forallb]. rewrite IH, !hex_safe; [reflexivity| |].
    + apply N.mod_lt. lia.
    + pose proof (N_ascii_bounded c). apply N.Div0.div_lt_upper_bound. lia.
Qed.

Lemma includes_char (P : ascii -> bool) (c : ascii) (s : string) :
  forallb P (list_ascii_of_string s) = true -> P c = false ->
  JsText.includes s (String c EmptyString) = false.
Proof.
  intros Hs Hc. induction s as [|a r IH]; [reflexivity|].
  cbn [list_ascii_of_string forallb] in Hs. apply andb_true_iff in Hs as [Ha Hr].
  cbn [JsText.includes String.prefix].
  destruct (ascii_dec c a) as [->|_]; [congruence|].
  cbn [orb]. by apply IH.
Qed.

(** X13.  The value [handleSearch] gives the [url] parameter consists
    only of characters [encodeURIComponent] keeps, [%] and hexadecimal
    digits: nothing typed in the bar can end the parameter or add
    another one. *)
Theorem search_value_is_one_parameter (b : browser) (Hu : url b <> "") :
  exists value,
    proxiedUrl (handleSearch b) = Some (String.append "/api/proxy?url=" value)
    /\ forallb query_safe (list_ascii_of_string value) = true
    /\ JsText.includes value "&" = false
    /\ JsText.includes value "#" = false
    /\ JsText.includes value "=" = false.
Proof.
  exists (JsText.encodeURIComponent (target_of (url b))).
  pose proof (encoding_is_safe (target_of (url b))) as Hsafe.
  split; [|split; [exact Hsafe|]].
  - unfold handleSearch. apply String.eqb_neq in Hu. by rewrite Hu.
  - repeat split; by apply (includes_char query_safe).
Qed.

Lemma search_value_is_one_parameter_witness :
  url (bar "a&b=c #d") <> ""
  /\ exists value,
       proxiedUrl (handleSearch (bar "a&b=c #d"))
       = Some (String.append "/api/proxy?url=" value)
       /\ JsText.includes value "&" = false.
Proof.
  assert (Hu : url (bar "a&b=c #d") <> "") by discriminate.
  split; [exact Hu|].
  destruct (search_value_is_one_parameter (bar "a&b=c #d") Hu)
    as (value & Hp & _ & Ha & _).
  by exists value.
Defined.

(** X14.  The address [handleSearch] asks for is never empty, so the
    relay, given it as its [url], does not answer 400 but makes its
    one request for exactly that address. *)
Theorem search_is_never_refused (b : browser) (net : Relay.upstream)
    (Hu : url b <> "") :
  exists target,
    proxiedUrl (handleSearch b)
    = Some (String.append "/api/proxy?url=" (JsText.encodeURIComponent target))
    /\ target <> ""
    /\ Relay.fetches (Relay.handle (Some (Relay.QStr target)) net)
       = [Relay.Fetch (Relay.QStr target) [("User-Agent", Relay.user_agent)]].
Proof.
  exists (target_of (url b)). split; [|split].
  - unfold handleSearch. apply String.eqb_neq in Hu. by rewrite Hu.
  - apply target_not_empty.
  - apply RelayMore.fetches_of_target. cbn [Relay.truthy].
    apply negb_true_iff, String.eqb_neq, target_not_empty.
Qed.

Lemma search_is_never_refused_witness :
  url (bar "   ") <> ""
  /\ exists target,
       proxiedUrl (handleSearch (bar "   "))
       = Some (String.append "/api/proxy?url=" (JsText.encodeURIComponent target))
       /\ target <> "".
Proof.
  assert (Hu : url (bar "   ") <> "") by discriminate.
  split; [exact Hu|].
  destruct (search_is_never_refused (bar "   ") RelaySamples.refused Hu)
    as (target & Hp & Ht & _).
  by exists target.
Defined.

(** ** Chat *)

(** X15.  When [sendChatMessage] sends, the field held more than white
    space and is emptied, and the payload is one the server accepts:
    the stored message has the text exactly as typed, blanks included,
    the user's name (["Anonymous"] for an empty name) and the user's
    color, which is kept as it is when it is one of [USER_COLORS]. *)
Theorem typed_message_is_stored_as_typed
    (c c' : chat) (socket : nat) (payload : Js.json) (h : hub) (e : env)
    (Hsend : sendChatMessage c = (c', Some (socket, payload))) :
  let m := message_of payload e in
  JsText.trim (chatInput c) <> ""
  /\ chatInput c' = ""
  /\ socketRef c = Some socket
  /\ is_post (Some payload) = true
  /\ last (messages (Eff.exec (on_message (Some payload) e) h)) = Some m
  /\ text m = Some (Js.JStr (chatInput c))
  /\ (exists name, username c = Some name
        /\ user m = if String.eqb name "" then Js.JStr "Anonymous" else Js.JStr name)
  /\ (In (userColor c) USER_COLORS -> color m = Js.JStr (userColor c)).
Proof.
  cbv zeta. unfold sendChatMessage in Hsend.
  destruct (socketRef c) as [s0|] eqn:Hs; [|discriminate].
  destruct (username c) as [name|] eqn:Hn; [|discriminate].
  destruct (String.eqb_spec (JsText.trim (chatInput c)) "") as [|Htrim]; [discriminate|].
  injection Hsend as <- <- <-.
  assert (Hp : is_post (Some (Js.JObj [("type", Js.JStr "message"); ("user", Js.JStr name);
                                       ("text", Js.JStr (chatInput c));
                                       ("color", Js.JStr (userColor c))])) = true)
    by reflexivity.
  split; [exact Htrim|]. split; [reflexivity|]. split; [reflexivity|].
  split; [exact Hp|]. split.
  { unfold Eff.exec. rewrite HubFacts.on_message_post by exact Hp.
    cbn [fst logged store]. apply HubFacts.store_last. }
  split; [reflexivity|]. split.
  - exists name. split; [reflexivity|].
    change (Js.or_else (Some (Js.JStr name)) "Anonymous"
            = if String.eqb name "" then Js.JStr "Anonymous" else Js.JStr name).
    cbn [Js.or_else Js.truthy_json]. by destruct (String.eqb name "").
  - intros Hc.
    change (Js.or_else (Some (Js.JStr (userColor c))) "#ffffff" = Js.JStr (userColor c)).
    apply HubFacts.or_else_string. intros Heq. rewrite Heq in Hc.
    cbn in Hc. repeat (destruct Hc as [Hc|Hc]; [discriminate|]). exact Hc.
Qed.

Lemma typed_message_is_stored_as_typed_witness :
  sendChatMessage carol_typing
  = ({| chatInput := ""; socketRef := Some 0; username := Some "carol";
        userColor := "#34d399" |},
     Some (0, Js.JObj [("type", Js.JStr "message"); ("user", Js.JStr "carol");
                       ("text", Js.JStr "  hello  "); ("color", Js.JStr "#34d399")]))
  /\ text (message_of (Js.JObj [("type", Js.JStr "message"); ("user", Js.JStr "carol");
                                ("text", Js.JStr "  hello  ");
                                ("color", Js.JStr "#34d399")]) e0)
     = Some (Js.JStr "  hello  ").
Proof.
  assert (H : sendChatMessage carol_typing
              = ({| chatInput := ""; socketRef := Some 0; username := Some "carol";
                    userColor := "#34d399" |},
                 Some (0, Js.JObj [("type", Js.JStr "message"); ("user", Js.JStr "carol");
                                   ("text", Js.JStr "  hello  ");
                                   ("color", Js.JStr "#34d399")])))
    by (vm_compute; reflexivity).
  split; [exact H|].
  destruct (typed_message_is_stored_as_typed carol_typing _ 0 _ one_client e0 H)
    as (_ & _ & _ & _ & _ & Ht & _).
  exact Ht.
Defined.

(** A field with blanks only sends nothing and is kept. *)
Example blank_input_is_not_sent : sendChatMessage carol_idle = (carol_idle, None).
Proof. vm_compute. reflexivity. Qed.

End ClientFacts.

(** * Properties of the account endpoints *)

Module AuthFacts.
Import Eff Auth MoreSamples.

Lemma credentials_ok (b : Js.json) t :
  b <> Js.JNull ->
  credentials (Some b) t = (t, Ok (Js.prop b "username", Js.prop b "password")).
Proof. intros Hb. by destruct b. Qed.

Lemma signup_eq (b : Js.json) db :
  b <> Js.JNull ->
  signup (Some b) db []
  = (if Js.truthy (Js.prop b "username") && Js.truthy (Js.prop b "password")
     then Insert (Js.prop b "username") (Js.prop b "password")
          :: match db with
             | Done => [ResJson [("success", Js.JBool true)]]
             | RunThrows code =>
                 if Js.strict_eq_str code "SQLITE_CONSTRAINT"
                 then [ResStatus 400; ResJson [("error", Js.JStr "Username already exists")]]
                 else [ResStatus 500; ResJson [("error", Js.JStr "Internal server error")]]
             end
     else [ResStatus 400; ResJson [("error", Js.JStr "Username and password required")]],
     Ok tt).
Proof.
  intros Hb. unfold signup. unfold bind at 1. rewrite credentials_ok by done.
  cbn [fst snd].
  destruct (Js.truthy (Js.prop b "username")), (Js.truthy (Js.prop b "password"));
    cbn [negb orb andb]; try reflexivity.
  destruct db as [|code]; [reflexivity|].
  by destruct (Js.strict_eq_str code "SQLITE_CONSTRAINT").
Qed.

Lemma login_eq (b : Js.json) db :
  b <> Js.JNull ->
  login (Some b) db []
  = (if Js.truthy (Js.prop b "username") && Js.truthy (Js.prop b "password")
     then Select (Js.prop b "username") (Js.prop b "password")
          :: match db with
             | Row => [ResJson [("success", Js.JBool true);
                                ("username", default Js.JNull (Js.prop b "username"))]]
             | NoRow => [ResStatus 401; ResJson [("error", Js.JStr "Invalid credentials")]]
             | GetThrows _ => []
             end
     else [ResStatus 400; ResJson [("error", Js.JStr "Username and password required")]],
     match db with
     | GetThrows e =>
         if Js.truthy (Js.prop b "username") && Js.truthy (Js.prop b "password")
         then Throw e else Ok tt
     | _ => Ok tt
     end).
Proof.
  intros Hb. unfold login. unfold bind at 1. rewrite credentials_ok by done.
  cbn [fst snd].
  destruct (Js.truthy (Js.prop b "username")), (Js.truthy (Js.prop b "password"));
    cbn [negb orb andb]; by destruct db.
Qed.

(** X16.  Both endpoints answer a body that lacks a truthy [username]
    or a truthy [password] with status 400 and the error ["Username
    and password required"], and run no statement on the database. *)
Theorem credentials_are_required
    (b : Js.json) (db : run_result) (gdb : get_result)
    (Hb : b <> Js.JNull)
    (Hmiss : Js.truthy (Js.prop b "username") = false
             \/ Js.truthy (Js.prop b "password") = false) :
  signup (Some b) db []
  = ([ResStatus 400; ResJson [("error", Js.JStr "Username and password required")]], Ok tt)
  /\ login (Some b) gdb []
     = ([ResStatus 400; ResJson [("error", Js.JStr "Username and password required")]], Ok tt)
  /\ List.filter is_statement (exec (signup (Some b) db) []) = []
  /\ List.filter is_statement (exec (login (Some b) gdb) []) = [].
Proof.
  unfold exec. rewrite signup_eq, login_eq by done.
  assert (Hf : Js.truthy (Js.prop b "username") && Js.truthy (Js.prop b "password") = false).
  { destruct Hmiss as [-> | ->]; [reflexivity|apply andb_false_r]. }
  rewrite Hf. by destruct gdb.
Qed.

Lemma credentials_are_required_witness :
  dave_no_password <> Js.JNull
  /\ (Js.truthy (Js.prop dave_no_password "username") = false
      \/ Js.truthy (Js.prop dave_no_password "password") = false)
  /\ List.filter is_statement (exec (signup (Some dave_no_password) Done) []) = [].
Proof.
  assert (Hb : dave_no_password <> Js.JNull) by discriminate.
  assert (Hm : Js.truthy (Js.prop dave_no_password "username") = false
               \/ Js.truthy (Js.prop dave_no_password "password") = false)
    by (right; reflexivity).
  split; [exact Hb|]. split; [exact Hm|].
  destruct (credentials_are_required dave_no_password Done Row Hb Hm) as (_ & _ & H & _).
  exact H.
Defined.

Lemma signup_full_eq (b : Js.json) prep db :
  b <> Js.JNull ->
  AuthFull.signup (Some b) prep db []
  = (if Js.truthy (Js.prop b "username") && Js.truthy (Js.prop b "password")
     then (if AuthFull.is_prepared prep
           then [Insert (Js.prop b "username") (Js.prop b "password")] else [])
          ++ match AuthFull.thrown prep db with
             | None => [ResJson [("success", Js.JBool true)]]
             | Some code =>
                 if Js.strict_eq_str code "SQLITE_CONSTRAINT"
                 then [ResStatus 400; ResJson [("error", Js.JStr "Username already exists")]]
                 else [ResStatus 500; ResJson [("error", Js.JStr "Internal server error")]]
             end
     else [ResStatus 400; ResJson [("error", Js.JStr "Username and password required")]],
     Ok tt).
Proof.
  intros Hb. unfold AuthFull.signup. unfold bind at 1. rewrite credentials_ok by done.
  cbn [fst snd].
  destruct (Js.truthy (Js.prop b "username")), (Js.truthy (Js.prop b "password"));
    cbn [negb orb andb]; try reflexivity.
  destruct prep as [|code e]; [destruct db as [|code]|]; cbn; try reflexivity;
    unfold AuthFull.refused; by destruct (Js.strict_eq_str code "SQLITE_CONSTRAINT").
Qed.

Lemma login_full_eq (b : Js.json) prep db :
  b <> Js.JNull ->
  AuthFull.login (Some b) prep db []
  = (if Js.truthy (Js.prop b "username") && Js.truthy (Js.prop b "password")
     then (if AuthFull.is_prepared prep
           then [Select (Js.prop b "username") (Js.prop b "password")] else [])
          ++ match prep, db with
             | AuthFull.Prepared, Row =>
                 [ResJson [("success", Js.JBool true);
                           ("username", default Js.JNull (Js.prop b "username"))]]
             | AuthFull.Prepared, NoRow =>
                 [ResStatus 401; ResJson [("error", Js.JStr "Invalid credentials")]]
             | _, _ => []
             end
     else [ResStatus 400; ResJson [("error", Js.JStr "Username and password required")]],
     if Js.truthy (Js.prop b "username") && Js.truthy (Js.prop b "password")
     then match AuthFull.escapes prep db with
          | Some e => Throw e
          | None => Ok tt
          end
     else Ok tt).
Proof.
  intros Hb. unfold AuthFull.login. unfold bind at 1. rewrite credentials_ok by done.
  cbn [fst snd].
  destruct (Js.truthy (Js.prop b "username")), (Js.truthy (Js.prop b "password"));
    cbn [negb orb andb]; try reflexivity.
  destruct prep as [|code e]; [destruct db|]; reflexivity.
Qed.

(** With the statement prepared, the endpoints are the ones above. *)
Lemma prepared_endpoints body db gdb :
  AuthFull.signup body AuthFull.Prepared db = signup body db
  /\ AuthFull.login body AuthFull.Prepared gdb = login body gdb.
Proof. by split. Qed.

(** X17.  Whatever the driver does, at [prepare] or at [run],
    [signup] returns normally with exactly one answer.  It runs one
    INSERT, with the two values as they came in the body, when both
    are truthy and the statement could be prepared; it runs nothing
    when [prepare] throws, and never a SELECT.  It answers success
    exactly when both values are truthy and neither [prepare] nor
    [run] threw; it answers ["Username already exists"] exactly when
    one of them threw an error whose [code] is the string
    ["SQLITE_CONSTRAINT"]. *)
Theorem signup_answers_every_outcome
    (b : Js.json) (prep : AuthFull.prepare_result) (db : run_result)
    (Hb : b <> Js.JNull) :
  let t := exec (AuthFull.signup (Some b) prep db) [] in
  let both := Js.truthy (Js.prop b "username") && Js.truthy (Js.prop b "password") in
  AuthFull.signup (Some b) prep db [] = (t, Ok tt)
  /\ length (answers t) = 1
  /\ List.filter is_statement t
     = (if both && AuthFull.is_prepared prep
        then [Insert (Js.prop b "username") (Js.prop b "password")] else [])
  /\ (answers t = [[("success", Js.JBool true)]]
      <-> both = true /\ AuthFull.thrown prep db = None)
  /\ (answers t = [[("error", Js.JStr "Username already exists")]]
      <-> both = true
          /\ exists code, AuthFull.thrown prep db = Some code
                          /\ Js.strict_eq_str code "SQLITE_CONSTRAINT" = true).
Proof.
  cbv zeta. unfold exec. rewrite signup_full_eq by done. cbn [fst].
  destruct (Js.truthy (Js.prop b "username") && Js.truthy (Js.prop b "password")).
  - destruct prep as [|code e]; [destruct db as [|code]|]; cbn [AuthFull.thrown
      AuthFull.is_prepared andb app];
      try destruct (Js.strict_eq_str code "SQLITE_CONSTRAINT") eqn:Hc;
      repeat split; try done;
      try (by intros (_ & [=])); try (by intros (_ & ? & [=] & _));
      try (by exists code);
      intros (_ & code' & [= <-] & Hc'); congruence.
  - repeat split; try done; try (by intros ([=] & _)).
Qed.

Lemma auth_witness_body : dave <> Js.JNull.
Proof. discriminate. Defined.

Lemma signup_answers_every_outcome_witness :
  dave <> Js.JNull
  /\ exec (AuthFull.signup (Some dave) no_table Done) []
     = [ResStatus 500; ResJson [("error", Js.JStr "Internal server error")]]
  /\ exec (AuthFull.signup (Some dave) AuthFull.Prepared
             (RunThrows (Some (Js.JStr "SQLITE_CONSTRAINT_UNIQUE")))) []
     = [Insert (Some (Js.JStr "dave")) (Some (Js.JStr "hunter2"));
        ResStatus 500; ResJson [("error", Js.JStr "Internal server error")]].
Proof.
  split; [exact auth_witness_body|].
  destruct (signup_answers_every_outcome dave no_table Done auth_witness_body)
    as (H1 & _).
  destruct (signup_answers_every_outcome dave AuthFull.Prepared
              (RunThrows (Some (Js.JStr "SQLITE_CONSTRAINT_UNIQUE"))) auth_witness_body)
    as (H2 & _).
  split; [exact (f_equal fst H1) | exact (f_equal fst H2)].
Defined.

(** X18.  [login] never writes: it runs one SELECT, with the two
    values as they came, when both are truthy and the statement could
    be prepared, and nothing else; when [prepare] throws it runs
    nothing.  It answers success exactly when both are truthy, the
    statement was prepared and a row came back, and then echoes the
    [username] it was sent.  When the driver throws, at [prepare] or
    at [get], the error leaves the handler and no answer is written;
    otherwise exactly one answer is. *)
Theorem login_only_reads
    (b : Js.json) (prep : AuthFull.prepare_result) (db : get_result)
    (Hb : b <> Js.JNull) :
  let run := AuthFull.login (Some b) prep db [] in
  let both := Js.truthy (Js.prop b "username") && Js.truthy (Js.prop b "password") in
  List.filter is_statement (fst run)
  = (if both && AuthFull.is_prepared prep
     then [Select (Js.prop b "username") (Js.prop b "password")] else [])
  /\ (answers (fst run)
      = [[("success", Js.JBool true);
          ("username", default Js.JNull (Js.prop b "username"))]]
      <-> both = true /\ prep = AuthFull.Prepared /\ db = Row)
  /\ snd run
     = (if both then
          match AuthFull.escapes prep db with
          | Some e => Throw e
          | None => Ok tt
          end
        else Ok tt)
  /\ length (answers (fst run))
     = (if both then
          match AuthFull.escapes prep db with
          | Some _ => 0
          | None => 1
          end
        else 1).
Proof.
  cbv zeta. rewrite login_full_eq by done. cbn [fst snd].
  destruct (Js.truthy (Js.prop b "username") && Js.truthy (Js.prop b "password")).
  - destruct prep as [|code e]; [destruct db as [| |e]|];
      cbn [AuthFull.escapes AuthFull.is_prepared andb app];
      repeat split; try done; try (by intros (_ & [=] & _));
      try (by intros (_ & _ & [=])).
  - repeat split; try done; try (by intros ([=] & _)).
Qed.

Lemma login_only_reads_witness :
  dave <> Js.JNull
  /\ snd (AuthFull.login (Some dave) no_table Row [])
     = Throw (Js.Error "SqliteError" "no such table: users")
  /\ List.filter is_statement (fst (AuthFull.login (Some dave) no_table Row [])) = []
  /\ List.filter is_statement (fst (AuthFull.login (Some dave) AuthFull.Prepared Row []))
     = [Select (Some (Js.JStr "dave")) (Some (Js.JStr "hunter2"))]
  /\ answers (fst (AuthFull.login (Some dave) AuthFull.Prepared Row []))
     = [[("success", Js.JBool true); ("username", Js.JStr "dave")]].
Proof.
  split; [exact auth_witness_body|].
  destruct (login_only_reads dave AuthFull.Prepared Row auth_witness_body)
    as (Hs & Ha & _).
  destruct (login_only_reads dave no_table Row auth_witness_body)
    as (Hs0 & _ & Ho & Hn).
  split; [exact Ho|]. split; [exact Hs0|].
  split; [exact Hs|]. apply Ha. by repeat split.
Defined.

End AuthFacts.

(** * Properties of the login form *)

Module LoginFacts.
Import Login MoreSamples.

Lemma request_not_null f : request f <> Js.JNull.
Proof. discriminate. Qed.

Lemma request_username f :
  Js.prop (request f) "username" = Some (Js.JStr (authUsername f)).
Proof. reflexivity. Qed.

Lemma request_password f :
  Js.prop (request f) "password" = Some (Js.JStr (authPassword f)).
Proof. reflexivity. Qed.

Lemma press_login_eq f db :
  authMode f = login_mode ->
  press_login f db
  = {| authMode := login_mode; authUsername := authUsername f;
       authPassword := authPassword f;
       authError :=
         if filled f then
           match db with
           | Auth.Row => Js.JStr ""
           | Auth.NoRow => Js.JStr "Invalid credentials"
           | Auth.GetThrows _ => Js.JStr "Network error. Please try again."
           end
         else Js.JStr "Username and password required";
       user :=
         if filled f then
           match db with
           | Auth.Row => Some (Some (Js.JStr (authUsername f)))
           | _ => user f
           end
         else user f |}.
Proof.
  intros Hm. unfold press_login.
  rewrite AuthFacts.login_eq by apply request_not_null.
  rewrite request_username, request_password. unfold filled.
  cbn [Js.truthy Js.truthy_json].
  destruct (String.eqb (authUsername f) ""), (String.eqb (authPassword f) "");
    cbn [negb andb]; destruct db; unfold handleAuth, network_error; cbn;
    rewrite ?Hm; reflexivity.
Qed.

Lemma press_signup_eq f db :
  authMode f = signup_mode ->
  press_signup f db
  = {| authMode := if filled f then
                     match db with Auth.Done => login_mode | _ => signup_mode end
                   else signup_mode;
       authUsername := authUsername f;
       authPassword := authPassword f;
       authError :=
         if filled f then
           match db with
           | Auth.Done => Js.JStr "Account created! Please log in."
           | Auth.RunThrows code =>
               if Js.strict_eq_str code "SQLITE_CONSTRAINT"
               then Js.JStr "Username already exists"
               else Js.JStr "Internal server error"
           end
         else Js.JStr "Username and password required";
       user := user f |}.
Proof.
  intros Hm. unfold press_signup.
  rewrite AuthFacts.signup_eq by apply request_not_null.
  rewrite request_username, request_password. unfold filled.
  cbn [Js.truthy Js.truthy_json].
  destruct (String.eqb (authUsername f) ""), (String.eqb (authPassword f) "");
    cbn [negb andb]; destruct db as [|code];
    try destruct (Js.strict_eq_str code "SQLITE_CONSTRAINT");
    unfold handleAuth, network_error; cbn; rewrite ?Hm; reflexivity.
Qed.

(** X19.  Pressing the button in login mode logs the user in exactly
    when both fields are filled in and the lookup returned a row; the
    name then kept is the one typed, which is not empty.  In every
    other case nobody is logged in or out and the form shows what went
    wrong: missing fields, wrong credentials, or, when the driver
    threw, a network error. *)
Theorem browser_login_needs_a_row (f : form) (db : Auth.get_result)
    (Hm : authMode f = login_mode) :
  let f' := press_login f db in
  user f'
  = (if filled f then
       match db with
       | Auth.Row => Some (Some (Js.JStr (authUsername f)))
       | _ => user f
       end
     else user f)
  /\ authError f'
     = (if filled f then
          match db with
          | Auth.Row => Js.JStr ""
          | Auth.NoRow => Js.JStr "Invalid credentials"
          | Auth.GetThrows _ => Js.JStr "Network error. Please try again."
          end
        else Js.JStr "Username and password required")
  /\ (user f' <> user f -> db = Auth.Row /\ authUsername f <> "" /\ authPassword f <> "").
Proof.
  cbv zeta. rewrite press_login_eq by done. cbn [user authError].
  split; [reflexivity|]. split; [reflexivity|].
  unfold filled.
  destruct (String.eqb_spec (authUsername f) ""), (String.eqb_spec (authPassword f) "");
    cbn [negb andb]; try done.
  by destruct db.
Qed.

Lemma browser_login_needs_a_row_witness :
  authMode dave_form = login_mode
  /\ user (press_login dave_form Auth.Row) = Some (Some (Js.JStr "dave"))
  /\ user (press_login dave_form Auth.NoRow) = None.
Proof.
  split; [reflexivity|].
  destruct (browser_login_needs_a_row dave_form Auth.Row eq_refl) as (H1 & _).
  destruct (browser_login_needs_a_row dave_form Auth.NoRow eq_refl) as (H2 & _).
  split; [exact H1 | exact H2].
Defined.

(** X20.  Pressing the button in sign-up mode never logs anybody in
    or out.  The form switches to login mode and says the account was
    created exactly when both fields are filled in and the INSERT
    returned; otherwise it stays in sign-up mode and shows the
    server's error. *)
Theorem browser_signup_never_logs_in (f : form) (db : Auth.run_result)
    (Hm : authMode f = signup_mode) :
  let f' := press_signup f db in
  user f' = user f
  /\ (authMode f' = login_mode <-> filled f = true /\ db = Auth.Done)
  /\ (authError f' = Js.JStr "Account created! Please log in."
      <-> filled f = true /\ db = Auth.Done)
  /\ authError f'
     = (if filled f then
          match db with
          | Auth.Done => Js.JStr "Account created! Please log in."
          | Auth.RunThrows code =>
              if Js.strict_eq_str code "SQLITE_CONSTRAINT"
              then Js.JStr "Username already exists"
              else Js.JStr "Internal server error"
          end
        else Js.JStr "Username and password required").
Proof.
  cbv zeta. rewrite press_signup_eq by done. cbn [user authError authMode].
  split; [reflexivity|].
  destruct (filled f).
  - destruct db as [|code].
    + by repeat split.
    + destruct (Js.strict_eq_str code "SQLITE_CONSTRAINT");
        repeat split; try done; by intros (_ & [=]).
  - repeat split; try done; by intros ([=] & _).
Qed.

Lemma browser_signup_never_logs_in_witness :
  authMode dave_signup_form = signup_mode
  /\ user (press_signup dave_signup_form Auth.Done) = None
  /\ authError (press_signup dave_signup_form
                  (Auth.RunThrows (Some (Js.JStr "SQLITE_CONSTRAINT_UNIQUE"))))
     = Js.JStr "Internal server error".
Proof.
  split; [reflexivity|].
  destruct (browser_signup_never_logs_in dave_signup_form Auth.Done eq_refl) as (H1 & _).
  destruct (browser_signup_never_logs_in dave_signup_form
              (Auth.RunThrows (Some (Js.JStr "SQLITE_CONSTRAINT_UNIQUE"))) eq_refl)
    as (_ & _ & _ & H2).
  split; [exact H1 | exact H2].
Defined.

(** X21.  A message sent by a user who was logged out and logged in
    through the form is stored under the name typed at login: it is
    never attributed to ["Anonymous"] or to another name. *)
Theorem logged_in_name_is_shown
    (f : form) (db : Auth.get_result) (name : string)
    (c c' : Client.chat) (socket : nat) (payload : Js.json) (e : Hub.env)
    (Hm : authMode f = login_mode)
    (Hout : user f = None)
    (Hin : user (press_login f db) = Some (Some (Js.JStr name)))
    (Hc : Client.username c = Some name)
    (Hsend : Client.sendChatMessage c = (c', Some (socket, payload))) :
  name = authUsername f
  /\ name <> ""
  /\ db = Auth.Row
  /\ Hub.is_post (Some payload) = true
  /\ Hub.user (Hub.message_of payload e) = Js.JStr name.
Proof.
  rewrite press_login_eq in Hin by done. cbn [user] in Hin. unfold filled in Hin.
  destruct (String.eqb_spec (authUsername f) "") as [|Hu]; cbn [negb andb] in Hin;
    [congruence|].
  destruct (String.eqb (authPassword f) ""); cbn [negb] in Hin; [congruence|].
  destruct db; try congruence. injection Hin as <-.
  split; [reflexivity|]. split; [exact Hu|]. split; [reflexivity|].
  unfold Client.sendChatMessage in Hsend. rewrite Hc in Hsend.
  destruct (Client.socketRef c); [|discriminate].
  destruct (String.eqb (JsText.trim (Client.chatInput c)) ""); [discriminate|].
  injection Hsend as <- <- <-.
  split; [reflexivity|].
  change (Js.or_else (Some (Js.JStr (authUsername f))) "Anonymous"
          = Js.JStr (authUsername f)).
  by apply HubFacts.or_else_string.
Qed.

Lemma logged_in_name_is_shown_witness :
  user (press_login dave_form Auth.Row) = Some (Some (Js.JStr "dave"))
  /\ Hub.user (Hub.message_of
                 (Js.JObj [("type", Js.JStr "message"); ("user", Js.JStr "dave");
                           ("text", Js.JStr "hi all"); ("color", Js.JStr "#f87171")])
                 Samples.e0)
     = Js.JStr "dave".
Proof.
  assert (Hin : user (press_login dave_form Auth.Row) = Some (Some (Js.JStr "dave")))
    by (vm_compute; reflexivity).
  assert (Hsend : Client.sendChatMessage dave_typing
                  = ({| Client.chatInput := ""; Client.socketRef := Some 0;
                        Client.username := Some "dave"; Client.userColor := "#f87171" |},
                     Some (0, Js.JObj [("type", Js.JStr "message"); ("user", Js.JStr "dave");
                                       ("text", Js.JStr "hi all");
                                       ("color", Js.JStr "#f87171")])))
    by (vm_compute; reflexivity).
  split; [exact Hin|].
  destruct (logged_in_name_is_shown dave_form Auth.Row "dave" dave_typing _ 0 _ Samples.e0
              eq_refl eq_refl Hin eq_refl Hsend) as (_ & _ & _ & _ & H).
  exact H.
Defined.

End LoginFacts.

(** * Properties of the address bar on any text *)

Module AddressBarFacts.
Import Eff JsUnits AddressBar.

Local Open Scope N_scope.

(** ** Code units *)

Lemma unreserved_ascii c : JsText.unreserved c = true -> c < 128.
Proof.
  intros Hc. destruct (N.lt_ge_cases c 128) as [|Hge]; [done|].
  unfold JsText.unreserved in Hc.
  replace (c <=? 90) with false in Hc by (symmetry; apply N.leb_gt; lia).
  replace (c <=? 122) with false in Hc by (symmetry; apply N.leb_gt; lia).
  replace (c <=? 57) with false in Hc by (symmetry; apply N.leb_gt; lia).
  replace (c =? 45) with false in Hc by (symmetry; apply N.eqb_neq; lia).
  replace (c =? 95) with false in Hc by (symmetry; apply N.eqb_neq; lia).
  replace (c =? 46) with false in Hc by (symmetry; apply N.eqb_neq; lia).
  replace (c =? 33) with false in Hc by (symmetry; apply N.eqb_neq; lia).
  replace (c =? 126) with false in Hc by (symmetry; apply N.eqb_neq; lia).
  replace (c =? 42) with false in Hc by (symmetry; apply N.eqb_neq; lia).
  replace (c =? 39) with false in Hc by (symmetry; apply N.eqb_neq; lia).
  replace (c =? 40) with false in Hc by (symmetry; apply N.eqb_neq; lia).
  replace (c =? 41) with false in Hc by (symmetry; apply N.eqb_neq; lia).
  rewrite !andb_false_r in Hc. discriminate.
Qed.

Lemma ascii_no_surrogate c : c < 128 -> low c = false /\ high c = false.
Proof.
  intros Hc. unfold low, high.
  replace (56320 <=? c) with false by (symmetry; apply N.leb_gt; lia).
  replace (55296 <=? c) with false by (symmetry; apply N.leb_gt; lia).
  by split.
Qed.

Lemma white_no_surrogate u : white u = true -> low u = false /\ high u = false.
Proof.
  intros Hw.
  destruct (N.le_gt_cases 55296 u) as [Hlo|Hlo];
    [destruct (N.le_gt_cases u 57343) as [Hhi|Hhi]|].
  - exfalso. unfold white in Hw.
    replace (u =? 9) with false in Hw by (symmetry; apply N.eqb_neq; lia).
    replace (u =? 10) with false in Hw by (symmetry; apply N.eqb_neq; lia).
    replace (u =? 11) with false in Hw by (symmetry; apply N.eqb_neq; lia).
    replace (u =? 12) with false in Hw by (symmetry; apply N.eqb_neq; lia).
    replace (u =? 13) with false in Hw by (symmetry; apply N.eqb_neq; lia).
    replace (u =? 32) with false in Hw by (symmetry; apply N.eqb_neq; lia).
    replace (u =? 160) with false in Hw by (symmetry; apply N.eqb_neq; lia).
    replace (u =? 5760) with false in Hw by (symmetry; apply N.eqb_neq; lia).
    replace (u <=? 8202) with false in Hw by (symmetry; apply N.leb_gt; lia).
    replace (u =? 8232) with false in Hw by (symmetry; apply N.eqb_neq; lia).
    replace (u =? 8233) with false in Hw by (symmetry; apply N.eqb_neq; lia).
    replace (u =? 8239) with false in Hw by (symmetry; apply N.eqb_neq; lia).
    replace (u =? 8287) with false in Hw by (symmetry; apply N.eqb_neq; lia).
    replace (u =? 12288) with false in Hw by (symmetry; apply N.eqb_neq; lia).
    replace (u =? 65279) with false in Hw by (symmetry; apply N.eqb_neq; lia).
    rewrite !andb_false_r in Hw. discriminate.
  - unfold low, high.
    replace (u <=? 57343) with false by (symmetry; apply N.leb_gt; lia).
    replace (u <=? 56319) with false by (symmetry; apply N.leb_gt; lia).
    by rewrite !andb_false_r.
  - unfold low, high.
    replace (56320 <=? u) with false by (symmetry; apply N.leb_gt; lia).
    replace (55296 <=? u) with false by (symmetry; apply N.leb_gt; lia).
    by split.
Qed.

(** ** Well-formed text *)

Lemma encodes_cons c s :
  encodes (c :: s)
  = if JsText.unreserved c then encodes s
    else if low c then false
    else if high c then
      match s with
      | d :: s' => low d && encodes s'
      | [] => false
      end
    else encodes s.
Proof.
  unfold encodes. cbn [encodeURIComponent].
  destruct (JsText.unreserved c); [by destruct (encodeURIComponent s)|].
  destruct (low c); [done|].
  destruct (high c); [|by destruct (encodeURIComponent s)].
  destruct s as [|d s']; [done|].
  destruct (low d); [|done]. by destruct (encodeURIComponent s').
Qed.

Lemma well_formed_plain c s :
  low c = false -> high c = false -> well_formed (c :: s) = well_formed s.
Proof. intros Hl Hh. cbn [well_formed]. by rewrite Hl, Hh. Qed.

(** [encodeURIComponent] throws exactly on text that is not well
    formed. *)
Lemma encodes_well_formed s : encodes s = well_formed s.
Proof.
  enough (H : encodes s = well_formed s
              /\ forall c, encodes (c :: s) = well_formed (c :: s)) by apply H.
  assert (Hstep : forall c t,
             encodes t = well_formed t ->
             (forall d t', t = d :: t' -> encodes t' = well_formed t') ->
             encodes (c :: t) = well_formed (c :: t)).
  { intros c t Ht Htail. rewrite encodes_cons. cbn [well_formed].
    destruct (JsText.unreserved c) eqn:Hu.
    - destruct (ascii_no_surrogate c (unreserved_ascii c Hu)) as [-> ->]. exact Ht.
    - destruct (low c); [done|]. destruct (high c); [|exact Ht].
      destruct t as [|d t']; [done|]. by rewrite (Htail d t'). }
  induction s as [|d s [IH1 IH2]].
  - split; [reflexivity|]. intros c. by apply Hstep.
  - split; [apply IH2|]. intros c. apply Hstep; [apply IH2|].
    by intros d' t' [= <- <-].
Qed.

Lemma well_formed_skip s : well_formed (skip s) = well_formed s.
Proof.
  induction s as [|u s IH]; [reflexivity|].
  cbn [skip]. destruct (white u) eqn:Hw; [|reflexivity].
  destruct (white_no_surrogate u Hw) as [Hl Hh].
  by rewrite well_formed_plain.
Qed.

Lemma well_formed_snoc s w :
  low w = false -> high w = false -> well_formed (s ++ [w]) = well_formed s.
Proof.
  intros Hl Hh.
  enough (H : well_formed (s ++ [w]) = well_formed s
              /\ forall c, well_formed ((c :: s) ++ [w]) = well_formed (c :: s)) by apply H.
  induction s as [|d s [IH1 IH2]].
  - split; [by apply well_formed_plain|].
    intros c. cbn [app well_formed]. rewrite Hl, Hh.
    destruct (low c); [done|]. by destruct (high c).
  - split; [apply IH2|]. intros c.
    change ((c :: d :: s) ++ [w]) with (c :: d :: (s ++ [w])).
    change (well_formed (c :: d :: s ++ [w]))
      with (if low c then false
            else if high c then low d && well_formed (s ++ [w])
            else well_formed ((d :: s) ++ [w])).
    change (well_formed (c :: d :: s))
      with (if low c then false
            else if high c then low d && well_formed s
            else well_formed (d :: s)).
    by rewrite IH1, IH2.
Qed.

Lemma well_formed_rev_skip l : well_formed (rev (skip l)) = well_formed (rev l).
Proof.
  induction l as [|u l IH]; [reflexivity|].
  cbn [skip]. destruct (white u) eqn:Hw; [|reflexivity].
  destruct (white_no_surrogate u Hw) as [Hl Hh].
  cbn [rev]. by rewrite well_formed_snoc.
Qed.

Lemma well_formed_trim s : well_formed (trim s) = well_formed s.
Proof.
  unfold trim. by rewrite well_formed_rev_skip, rev_involutive, well_formed_skip.
Qed.

Lemma well_formed_after_ascii p s : ascii p = true -> well_formed (p ++ s) = well_formed s.
Proof.
  induction p as [|c p IH]; [reflexivity|]. intros Hp.
  cbn [ascii forallb] in Hp. apply andb_true_iff in Hp as [Hc Hp].
  apply N.ltb_lt in Hc. destruct (ascii_no_surrogate c Hc) as [Hl Hh].
  cbn [app]. rewrite well_formed_plain by done. by apply IH.
Qed.

Lemma well_formed_ascii s : ascii s = true -> well_formed s = true.
Proof.
  intros Hs. rewrite <- (app_nil_r s). by rewrite well_formed_after_ascii.
Qed.

(** ** What an encoding consists of *)

Lemma hexd_ascii d : d < 16 -> hexd d < 128.
Proof. intros Hd. unfold hexd. destruct (N.ltb_spec d 10); lia. Qed.

Lemma escape_ascii octets :
  Forall (fun b => b < 256) octets -> ascii (escape octets) = true.
Proof.
  induction 1 as [|b octets Hb _ IH]; [reflexivity|].
  cbn [escape flat_map app ascii forallb]. fold (escape octets). fold (ascii (escape octets)).
  rewrite IH, andb_true_r.
  assert (H1 : hexd (b / 16) < 128)
    by (apply hexd_ascii, N.Div0.div_lt_upper_bound; lia).
  assert (H2 : hexd (b mod 16) < 128) by (apply hexd_ascii, N.mod_lt; lia).
  apply N.ltb_lt in H1, H2. by rewrite H1, H2.
Qed.

Lemma utf8_octets v : v < 1114112 -> Forall (fun b => b < 256) (utf8 v).
Proof.
  intros Hv. unfold utf8.
  assert (H64 : forall x, 128 + x mod 64 < 256)
    by (intros x; pose proof (N.mod_lt x 64); lia).
  destruct (N.ltb_spec v 128); [repeat constructor; lia|].
  destruct (N.ltb_spec v 2048).
  { repeat constructor; [|apply H64].
    assert (v / 64 < 32) by (apply N.Div0.div_lt_upper_bound; lia). lia. }
  destruct (N.ltb_spec v 65536).
  { repeat constructor; [|apply H64|apply H64].
    assert (v / 4096 < 16) by (apply N.Div0.div_lt_upper_bound; lia). lia. }
  repeat constructor; [|apply H64|apply H64|apply H64].
  assert (v / 262144 < 5) by (apply N.Div0.div_lt_upper_bound; lia). lia.
Qed.

Lemma ascii_app p q : ascii (p ++ q) = ascii p && ascii q.
Proof. apply forallb_app. Qed.

Lemma encoding_is_ascii s out :
  units s = true -> encodeURIComponent s = Some out -> ascii out = true.
Proof.
  revert out.
  enough (H : (forall out, units s = true -> encodeURIComponent s = Some out ->
                           ascii out = true)
              /\ forall c out, units (c :: s) = true ->
                               encodeURIComponent (c :: s) = Some out ->
                               ascii out = true) by apply H.
  assert (Hstep : forall c t,
             (forall out, units t = true -> encodeURIComponent t = Some out ->
                          ascii out = true) ->
             (forall d t' out, t = d :: t' -> units t' = true ->
                               encodeURIComponent t' = Some out -> ascii out = true) ->
             forall out, units (c :: t) = true ->
                         encodeURIComponent (c :: t) = Some out -> ascii out = true).
  { intros c t Ht Htail out Hu He.
    cbn [units forallb] in Hu. apply andb_true_iff in Hu as [Hc Hu].
    apply N.ltb_lt in Hc. cbn [encodeURIComponent] in He.
    destruct (JsText.unreserved c) eqn:Hun.
    - destruct (encodeURIComponent t) as [o|] eqn:Het; [|discriminate].
      injection He as <-. cbn [ascii forallb].
      pose proof (unreserved_ascii c Hun) as Hlt. apply N.ltb_lt in Hlt.
      rewrite Hlt. by apply Ht.
    - destruct (low c) eqn:Hl; [discriminate|].
      destruct (high c) eqn:Hh.
      + destruct t as [|d t']; [discriminate|].
        destruct (low d) eqn:Hld; [|discriminate].
        destruct (encodeURIComponent t') as [o|] eqn:Het; [|discriminate].
        injection He as <-.
        cbn [units forallb] in Hu. apply andb_true_iff in Hu as [Hd Hu].
        rewrite ascii_app, (Htail d t' o) by done.
        rewrite escape_ascii; [reflexivity|]. apply utf8_octets.
        unfold high in Hh. unfold low in Hld.
        apply andb_true_iff in Hh as [_ Hh]. apply andb_true_iff in Hld as [_ Hld].
        apply N.leb_le in Hh, Hld. lia.
      + destruct (encodeURIComponent t) as [o|] eqn:Het; [|discriminate].
        injection He as <-. rewrite ascii_app, (Ht o) by done.
        rewrite escape_ascii; [reflexivity|]. apply utf8_octets. lia. }
  induction s as [|d s [IH1 IH2]].
  - split; [by intros out _ [= <-]|]. intros c.
    apply Hstep; [by intros out _ [= <-]|by intros d t' out [=]].
  - split; [apply IH2|]. intros c. apply Hstep; [apply IH2|].
    intros d' t' out [= <- <-]. apply IH1.
Qed.

Lemma units_skip s : units s = true -> units (skip s) = true.
Proof.
  induction s as [|u s IH]; [done|]. intros Hu. cbn [skip].
  destruct (white u); [|done].
  cbn [units forallb] in Hu. apply andb_true_iff in Hu as [_ Hu]. by apply IH.
Qed.

Lemma units_rev s : units (rev s) = units s.
Proof.
  induction s as [|u s IH]; [done|].
  cbn [rev]. unfold units in *. rewrite forallb_app, IH. cbn [forallb].
  rewrite andb_true_r. apply andb_comm.
Qed.

Lemma units_trim s : units s = true -> units (trim s) = true.
Proof.
  intros Hu. unfold trim. rewrite units_rev. apply units_skip.
  rewrite units_rev. by apply units_skip.
Qed.

Lemma startsWith_app p s : startsWith (p ++ s) p = true.
Proof.
  induction p as [|a p IH]; [by destruct s|].
  cbn [app startsWith]. by rewrite N.eqb_refl, IH.
Qed.

(** ** The address asked for *)

Lemma encodes_some s : encodes s = true -> exists out, encodeURIComponent s = Some out.
Proof. unfold encodes. destruct (encodeURIComponent s) as [out|]; [eauto|done]. Qed.

Lemma encodes_none s : encodes s = false -> encodeURIComponent s = None.
Proof. unfold encodes. by destruct (encodeURIComponent s). Qed.

(** On well-formed text the address is made and can be encoded, and
    it names a scheme; on other text one of the two encodings
    throws. *)
Lemma target_of_cases typed :
  units typed = true ->
  if well_formed typed
  then exists target value,
         target_of typed = Some target
         /\ encodeURIComponent target = Some value
         /\ (startsWith target (lit "http://") = true
             \/ startsWith target (lit "https://") = true)
  else target_of typed = None
       \/ exists target, target_of typed = Some target
                         /\ encodeURIComponent target = None.
Proof.
  intros Hu. pose proof (units_trim typed Hu) as Hut.
  rewrite <- (well_formed_trim typed). unfold target_of.
  set (t := trim typed) in *.
  destruct (includes t (lit ".") && negb (includes t (lit " "))); cbn [negb].
  - destruct (startsWith t (lit "http://")) eqn:H1; cbn [negb andb].
    + destruct (well_formed t) eqn:Hw.
      * destruct (encodes_some t) as [value Hv]; [by rewrite encodes_well_formed|].
        exists t, value. by repeat split; [|left].
      * right. exists t. split; [done|].
        apply encodes_none. by rewrite encodes_well_formed.
    + destruct (startsWith t (lit "https://")) eqn:H2; cbn [negb].
      * destruct (well_formed t) eqn:Hw.
        -- destruct (encodes_some t) as [value Hv]; [by rewrite encodes_well_formed|].
           exists t, value. by repeat split; [|right].
        -- right. exists t. split; [done|].
           apply encodes_none. by rewrite encodes_well_formed.
      * assert (Hw' : well_formed (lit "https://" ++ t) = well_formed t)
          by by apply well_formed_after_ascii.
        destruct (well_formed t) eqn:Hw.
        -- destruct (encodes_some (lit "https://" ++ t)) as [value Hv];
             [by rewrite encodes_well_formed|].
           exists (lit "https://" ++ t), value.
           split; [done|]. split; [done|]. right. apply startsWith_app.
        -- right. exists (lit "https://" ++ t). split; [done|].
           apply encodes_none. by rewrite encodes_well_formed.
  - pose proof (encodes_well_formed t) as He. unfold encodes in He.
    destruct (encodeURIComponent t) as [q|] eqn:Hq.
    + rewrite <- He.
      pose proof (encoding_is_ascii t q Hut Hq) as Hascii.
      destruct (encodes_some (lit "https://www.google.com/search?q=" ++ q))
        as [value Hv].
      { rewrite encodes_well_formed, well_formed_after_ascii by done.
        by apply well_formed_ascii. }
      exists (lit "https://www.google.com/search?q=" ++ q), value.
      split; [done|]. split; [done|]. right.
      apply (startsWith_app (lit "https://") (lit "www.google.com/search?q=" ++ q)).
    + rewrite <- He. by left.
Qed.

Lemma handleSearch_eq b u rest :
  url b = u :: rest ->
  handleSearch b
  = match target_of (url b) with
    | Some target =>
        match encodeURIComponent target with
        | Some value => (opened b value, Ok tt)
        | None => (b, Throw (Js.Error "URIError" "URI malformed"))
        end
    | None => (b, Throw (Js.Error "URIError" "URI malformed"))
    end.
Proof.
  intros Hurl. unfold handleSearch, target_of.
  unfold bind at 1. unfold gets at 1. rewrite Hurl.
  set (t := trim (u :: rest)).
  destruct (includes t (lit ".") && negb (includes t (lit " "))); cbn [negb].
  - destruct (negb (startsWith t (lit "http://")) && negb (startsWith t (lit "https://")));
      unfold bind at 1; unfold ret at 1; unfold bind at 1; unfold encode;
      (destruct (encodeURIComponent _) as [value|]; [|reflexivity]);
      unfold ret at 1; unfold modify, opened; by rewrite Hurl.
  - unfold bind at 1. unfold bind at 1. unfold encode at 1.
    destruct (encodeURIComponent t) as [q|]; [|reflexivity].
    unfold ret at 1. unfold ret at 1. unfold bind at 1. unfold encode.
    destruct (encodeURIComponent _) as [value|]; [|reflexivity].
    unfold ret at 1. unfold modify, opened. by rewrite Hurl.
Qed.

(** X12.  Whatever is typed in the bar, [handleSearch] does one of
    three things.  An empty bar changes nothing.  Text in which every
    surrogate is paired opens the proxy tab on [/api/proxy?url=]
    followed by the encoding of an address that starts with [http://]
    or [https://].  Text with an unpaired surrogate makes
    [encodeURIComponent] throw before any state is set: the URIError
    leaves the handler and nothing is opened. *)
Theorem search_asks_for_an_absolute_address (b : browser)
    (Hunits : units (url b) = true) :
  (url b = [] -> handleSearch b = (b, Ok tt))
  /\ (url b <> [] -> well_formed (url b) = true ->
      exists target value,
        encodeURIComponent target = Some value
        /\ handleSearch b = (opened b value, Ok tt)
        /\ (startsWith target (lit "http://") = true
            \/ startsWith target (lit "https://") = true))
  /\ (url b <> [] -> well_formed (url b) = false ->
      handleSearch b = (b, Throw (Js.Error "URIError" "URI malformed"))).
Proof.
  split; [|split].
  - intros Hurl. unfold handleSearch. unfold bind at 1. unfold gets at 1.
    by rewrite Hurl.
  - intros Hne Hw. destruct (url b) as [|u rest] eqn:Hurl; [done|].
    pose proof (target_of_cases (url b)) as Hc. rewrite Hurl in Hc at 1 2.
    rewrite Hw in Hc. destruct (Hc Hunits) as (target & value & Ht & Hv & Hs).
    exists target, value. split; [done|]. split; [|done].
    rewrite (handleSearch_eq b u rest Hurl). by rewrite Ht, Hv.
  - intros Hne Hw. destruct (url b) as [|u rest] eqn:Hurl; [done|].
    pose proof (target_of_cases (url b)) as Hc. rewrite Hurl in Hc at 1 2.
    rewrite Hw in Hc. rewrite (handleSearch_eq b u rest Hurl).
    destruct (Hc Hunits) as [Ht|(target & Ht & Hv)]; [by rewrite Ht|].
    by rewrite Ht, Hv.
Qed.

Lemma search_asks_for_an_absolute_address_witness :
  units (url host_typed) = true
  /\ url host_typed <> []
  /\ well_formed (url host_typed) = true
  /\ (exists target value,
        encodeURIComponent target = Some value
        /\ handleSearch host_typed = (opened host_typed value, Ok tt)
        /\ (startsWith target (lit "http://") = true
            \/ startsWith target (lit "https://") = true))
  /\ units (url half_emoji) = true
  /\ well_formed (url half_emoji) = false
  /\ handleSearch half_emoji = (half_emoji, Throw (Js.Error "URIError" "URI malformed")).
Proof.
  assert (Hu : units (url host_typed) = true) by reflexivity.
  assert (Hne : url host_typed <> []) by discriminate.
  assert (Hw : well_formed (url host_typed) = true) by reflexivity.
  assert (Hu' : units (url half_emoji) = true) by reflexivity.
  assert (Hne' : url half_emoji <> []) by discriminate.
  assert (Hw' : well_formed (url half_emoji) = false) by reflexivity.
  destruct (search_asks_for_an_absolute_address host_typed Hu) as (_ & H & _).
  destruct (search_asks_for_an_absolute_address half_emoji Hu') as (_ & _ & H').
  split; [exact Hu|]. split; [exact Hne|]. split; [exact Hw|].
  split; [exact (H Hne Hw)|]. split; [exact Hu'|]. split; [exact Hw'|].
  exact (H' Hne' Hw').
Defined.

(** A host name, a search, and an emoji in a search. *)
Example search_on_units :
  handleSearch host_typed
  = (opened host_typed (lit "https%3A%2F%2Fexample.com"), Ok tt)
  /\ handleSearch (typed_in (lit "cats"))
     = (opened (typed_in (lit "cats"))
          (lit "https%3A%2F%2Fwww.google.com%2Fsearch%3Fq%3Dcats"), Ok tt)
  /\ encodeURIComponent [55357; 56832] = Some (lit "%F0%9F%98%80").
Proof. vm_compute. by repeat split. Qed.

End AddressBarFacts.
